(** * DIA admission queue and retry/archival engine

    A shallow embedding of
      - [src/dbController/TasksJobQueue.ctrl.ts] (the ticket table), and
      - [waitUntilTopTask], [getIntelligences], [updateIntelligences] and
        [getProducer] of [src/apis/producers/helpers.ts],
    together with the properties the design document states about them.

    Conventions.  A JavaScript value that may be [undefined] is an [option];
    timestamps are integers (milliseconds since the epoch), and where the
    code hands a date to the storage as text, the text is built as the code
    builds it; an [async] function that may throw returns an [outcome]; the
    tables of the persistence layer are lists of rows, in insertion order. *)

From stdpp Require Import base decidable option list sorting strings gmap.
From Stdlib Require Import ZArith Lia.

Local Open Scope Z_scope.

(** ** Exceptions *)

(** What a [throw] carries: [new HTTPError(status, err, data, code, ...args)]
    (only the status, the operation code and the trailing operands are kept),
    the [TypeError] of a property read on [undefined], or the plain value a
    promise was rejected with ([reject(false)]). *)
Inductive exn :=
| HTTPError (status : Z) (code : string) (operands : list (option string))
| TypeError (reading : string)
| Thrown (v : bool).

Inductive outcome (A : Type) :=
| Return (a : A)
| Throw (e : exn).
Arguments Return {A} a.
Arguments Throw {A} e.

(** ** Dates as text *)

(** [new Date(t).toISOString()], for a time value [t] in milliseconds since
    the epoch: [YYYY-MM-DDTHH:mm:ss.sssZ] in UTC, the year with a sign and six
    digits outside 0000..9999, and a [RangeError] ([None]) for a time value
    that is no valid date (beyond 8.64e15 ms on either side). *)
Module JSDate.
Definition msPerDay : Z := 86400000.
Definition Day (t : Z) : Z := t / msPerDay.
Definition TimeWithinDay (t : Z) : Z := t mod msPerDay.

(** Year, month and day of the month of a day number in the proleptic
    Gregorian calendar; the years are counted from March in eras of 400. *)
Definition civil (day : Z) : Z * Z * Z :=
  let z := day + 719468 in
  let era := z / 146097 in
  let doe := z mod 146097 in
  let yoe := (doe - doe / 1460 + doe / 36524 - doe / 146096) / 365 in
  let doy := doe - (365 * yoe + yoe / 4 - yoe / 100) in
  let mp := (5 * doy + 2) / 153 in
  let d := doy - (153 * mp + 2) / 5 + 1 in
  let m := if bool_decide (mp < 10) then mp + 3 else mp - 9 in
  let y := yoe + era * 400 + (if bool_decide (m ≤ 2) then 1 else 0) in
  (y, m, d).

Definition YearFromTime (t : Z) : Z := (civil (Day t)).1.1.
Definition MonthFromTime (t : Z) : Z := (civil (Day t)).1.2.
Definition DateFromTime (t : Z) : Z := (civil (Day t)).2.
Definition HourFromTime (t : Z) : Z := TimeWithinDay t / 3600000.
Definition MinFromTime (t : Z) : Z := (TimeWithinDay t / 60000) mod 60.
Definition SecFromTime (t : Z) : Z := (TimeWithinDay t / 1000) mod 60.
Definition msFromTime (t : Z) : Z := TimeWithinDay t mod 1000.

(** The last [width] decimal digits of [n], in front of [rest]. *)
Definition digit (n : Z) : Ascii.ascii := Ascii.ascii_of_N (Z.to_N (48 + n mod 10)).
Fixpoint decimal (width : nat) (n : Z) (rest : string) : string :=
  match width with
  | O => rest
  | S w => decimal w (n / 10) (String (digit n) rest)
  end.

Definition monthAndDate (t : Z) : string :=
  decimal 2 (MonthFromTime t) "" +:+ "-" +:+ decimal 2 (DateFromTime t) "".
Definition timeOfDay (t : Z) : string :=
  decimal 2 (HourFromTime t) "" +:+ ":" +:+ decimal 2 (MinFromTime t) "" +:+ ":"
  +:+ decimal 2 (SecFromTime t) "" +:+ "." +:+ decimal 3 (msFromTime t) "".
Definition year (t : Z) : string :=
  let y := YearFromTime t in
  if bool_decide (0 ≤ y ≤ 9999) then decimal 4 y ""
  else (if bool_decide (0 ≤ y) then "+" else "-") +:+ decimal 6 (Z.abs y) "".

Definition toISOString (t : Z) : option string :=
  if bool_decide (-8640000000000000 ≤ t ≤ 8640000000000000) then
    Some ((year t +:+ "-" +:+ monthAndDate t) +:+ "T" +:+ timeOfDay t +:+ "Z")
  else None.
End JSDate.

(** The relational store behind the repository of [TasksJobQueue].  The
    entity and the configuration of the storage are not among the sources.
    The store keeps a date column as the UTC text [YYYY-MM-DD HH:MM:SS.SSS]
    (years 0000 to 9999), and a comparison of the column with a text it is
    handed compares the two texts character by character, by character code.
    The separator of date and time, a blank, is the first place where the
    column can differ from an ISO text of the same day. *)
Module Storage.
Import JSDate.
Definition datetime (t : Z) : string :=
  (decimal 4 (YearFromTime t) "" +:+ "-" +:+ monthAndDate t)
  +:+ " " +:+ timeOfDay t.

(** [created_at < :timeoutCreatedAt], for a stored [created_at]. *)
Definition lessThan (created_at : Z) (timeoutCreatedAt : string) : bool :=
  String.ltb (datetime created_at) timeoutCreatedAt.
End Storage.

(** ** The ticket table: [TasksJobQueue.ctrl.ts] *)

Module TasksJobQueue.
(** A row of the entity [TasksJobQueue].  [id] is the key the storage
    assigns to the row ([id] in the relational stores, [_id] in the document
    store); [global_id] is the identifier the caller generated. *)
Record t := mk {
  id : Z;
  global_id : string;
  agent_global_id : string;
  created_at : Z
}.
End TasksJobQueue.

Abbreviation table := (list TasksJobQueue.t).

Module TasksJobQueueCtrl.
Import TasksJobQueue.

(** Every exported function wraps its repository call in [try]/[catch];
    [up] tells whether the repository executes the call ([true]) or raises. *)
Definition http500 (place : string) : exn :=
  HTTPError 500 "00005000001" [Some place].

(** [addATaskJob]: [repo.insert({global_id, agent_global_id})].  The row key
    [row_id] and the creation stamp [now] are filled in by the storage. *)
Definition addATaskJob (up : bool) (row_id now : Z)
    (globalId agentGlobalId : string) (q : table) : outcome unit * table :=
  if up then
    (Return (), q ++ [mk row_id globalId agentGlobalId now])
  else (Throw (http500 "TasksJobQueue.ctrl->addATaskJob"), q).

(** The order of [orderBy({created_at: "ASC", id: "ASC"})], respectively of
    [$orderby: {created_at: 1, _id: 1}]. *)
Definition job_le (a b : t) : Prop :=
  created_at a < created_at b ∨ (created_at a = created_at b ∧ id a ≤ id b).

#[global] Instance job_le_dec : RelDecision job_le.
Proof. intros a b; unfold job_le; apply _. Defined.

Definition orderBy (q : table) : table := merge_sort job_le q.
Definition getOne (rows : table) : option t := head rows.

(** [getTopTaskJob]: first row of the ordered table, [undefined] when the
    table is empty. *)
Definition getTopTaskJob (up : bool) (q : table) : outcome (option t) :=
  if up then Return (getOne (orderBy q))
  else Throw (http500 "TasksJobQueue.ctrl->getTopTaskJob").

(** [removeTimeoutJob], on the relational store ([isMongo()] false):
    [timeoutCreatedAt] is [Date.now() - getConfig("TASK_JOB_TIMEOUT")] turned
    into text by [new Date(...).toISOString()], and that text is the
    parameter of [delete ... where created_at < :timeoutCreatedAt].  The
    [catch] block is empty: the [RangeError] of [toISOString] and a failed
    delete are swallowed, and the table stays as it is. *)
Definition removeTimeoutJob (up : bool) (now TASK_JOB_TIMEOUT : Z)
    (q : table) : table :=
  match JSDate.toISOString (now - TASK_JOB_TIMEOUT) with
  | None => q
  | Some timeoutCreatedAt =>
    if up then
      filter (λ j, Storage.lessThan (created_at j) timeoutCreatedAt = false) q
    else q
  end.

(** [removeTaskJob]: [repo.delete({global_id: globalId})]. *)
Definition removeTaskJob (up : bool) (globalId : string) (q : table)
    : outcome unit * table :=
  if up then (Return (), filter (λ j, global_id j ≠ globalId) q)
  else (Throw (http500 "TasksJobQueue.ctrl->removeTaskJob"), q).

(** The order the design document describes: creation time, then the
    ticket's global identifier. *)
Definition ticket_le_by_globalId (a b : t) : Prop :=
  created_at a < created_at b
  ∨ (created_at a = created_at b ∧ String.leb (global_id a) (global_id b) = true).
End TasksJobQueueCtrl.

(** ** Intelligences, reports and their store *)

(** JavaScript numbers as [failuresNumber] uses them: an integer, or the [NaN]
    that [undefined + 1] produces. *)
Inductive number :=
| NaN
| Num (n : Z).

#[global] Instance number_eq_dec : EqDecision number.
Proof. solve_decision. Defined.

(** [system.producer]: the attempt metadata of the producer that worked on an
    intelligence. *)
Module Attempt.
Record t := mk {
  globalId : option string;
  type : option string;
  startedAt : option Z;
  endedAt : option Z
}.
#[global] Instance eq_dec : EqDecision t.
Proof. solve_decision. Defined.
End Attempt.

Module Intelligence.
Record System := mkSystem {
  state : option string;
  failuresNumber : option number;
  failuresReason : option string;
  modified : option Z;
  endedAt : option Z;
  producer : option Attempt.t;
  securityKey : option string
}.
(** A stored intelligence.  [payload] stands for the fields the retry
    engine never reads (retailer, url, priority, ...). *)
Record t := mk {
  id : option Z;
  _id : option string;
  globalId : string;
  system : System;
  payload : list (string * string)
}.
#[global] Instance System_eq_dec : EqDecision System.
Proof. solve_decision. Defined.
#[global] Instance eq_dec : EqDecision t.
Proof. solve_decision. Defined.
End Intelligence.

(** An element of the [content] array a producer sends to
    [updateIntelligences]. *)
Module Report.
Record System := mkSystem {
  state : option string;
  failuresReason : option string;
  producer : option Attempt.t
}.
Record t := mk {
  globalId : string;
  system : option System
}.
#[global] Instance System_eq_dec : EqDecision System.
Proof. solve_decision. Defined.
#[global] Instance eq_dec : EqDecision t.
Proof. solve_decision. Defined.
End Report.

(** An element of [failedIntelligences]: the partial document written back
    for an intelligence that is to be retried. *)
Module Update.
Record t := mk {
  globalId : string;
  modified : Z;
  endedAt : Z;
  state : string;
  failuresNumber : option number;
  failuresReason : option string;
  producer : Attempt.t
}.
End Update.

(** Modelled from the spec: [util/constants] is not among the sources; the
    state names are those of the data model ("state ∈ {CONFIGURED, DISPATCHED,
    FINISHED, FAILED}"). *)
Module INTELLIGENCE_STATE.
Definition configured : string := "CONFIGURED".
Definition finished : string := "FINISHED".
Definition failed : string := "FAILED".
End INTELLIGENCE_STATE.

Module IntelligenceAndHistoryCtrl.
(** The two collections: active intelligences and the archive. *)
Record DB := mkDB {
  intelligences : list Intelligence.t;
  intelligences_history : list Intelligence.t
}.

(** Modelled from the spec: the glossary's security key, "an opaque
    ownership token scoping which caller may act on a given resource"; a
    caller acts on the records stamped with the key it presents. *)
Definition may_act (securityKey : option string) (i : Intelligence.t) : Prop :=
  Intelligence.securityKey (Intelligence.system i) = securityKey.

#[global] Instance may_act_dec k i : Decision (may_act k i).
Proof. unfold may_act; apply _. Defined.

(** Modelled from the spec: [dbController/IntelligenceAndHistory.ctrl] is
    not among the sources.  The persistence contract is "find-by-id/update/
    delete over the Intelligence collection; append-only insert over the
    HistoryRecord collection". *)
Definition getIntelligencesDB (gids : list string)
    (securityKey : option string) (db : DB) : list Intelligence.t :=
  filter (λ i, Intelligence.globalId i ∈ gids ∧ may_act securityKey i)
         (intelligences db).

(** Modelled from the spec: "update" of the persistence contract; the fields
    of the partial document replace those of the stored record with the
    same global id. *)
Definition applyUpdate (u : Update.t) (i : Intelligence.t) : Intelligence.t :=
  if decide (Intelligence.globalId i = Update.globalId u) then
    let s := Intelligence.system i in
    Intelligence.mk (Intelligence.id i) (Intelligence._id i)
      (Intelligence.globalId i)
      (Intelligence.mkSystem
         (Some (Update.state u)) (Update.failuresNumber u)
         (Update.failuresReason u) (Some (Update.modified u))
         (Some (Update.endedAt u)) (Some (Update.producer u))
         (Intelligence.securityKey s))
      (Intelligence.payload i)
  else i.

Definition updateEachIntelligencesDB (us : list Update.t) (db : DB) : DB :=
  mkDB (foldl (λ rows u, applyUpdate u <$> rows) (intelligences db) us)
       (intelligences_history db).

(** Modelled from the spec: "append-only insert over the HistoryRecord
    collection". *)
Definition addIntelligenceHistoryDB (hs : list Intelligence.t) (db : DB) : DB :=
  mkDB (intelligences db) (intelligences_history db ++ hs).

(** Modelled from the spec: "delete" of the persistence contract. *)
Definition deleteIntelligencesDB (gids : list string)
    (securityKey : option string) (db : DB) : DB :=
  mkDB (filter (λ i, ¬ (Intelligence.globalId i ∈ gids ∧ may_act securityKey i))
               (intelligences db))
       (intelligences_history db).

(** A stored record after the partial documents [us] were written, in order. *)
Definition updated (us : list Update.t) (i : Intelligence.t) : Intelligence.t :=
  foldl (λ r u, applyUpdate u r) i us.
End IntelligenceAndHistoryCtrl.

(** ** The retry and archival engine: [updateIntelligences] *)

Module RetryEngine.
Import IntelligenceAndHistoryCtrl.

(** JavaScript truthiness of an optional string. *)
Definition truthy (s : option string) : bool :=
  match s with
  | Some v => bool_decide (v ≠ "")
  | None => false
  end.

(** [x || 0] on a [failuresNumber]. *)
Definition or_zero (x : option number) : Z :=
  match x with
  | Some (Num n) => n
  | _ => 0
  end.

(** [!x] on a [failuresNumber]: [undefined], [NaN] and [0] are falsy. *)
Definition falsy_number (x : option number) : bool :=
  match x with
  | Some (Num n) => bool_decide (n = 0)
  | _ => true
  end.

(** [x += 1] on a [failuresNumber]. *)
Definition plus_one (x : option number) : option number :=
  match x with
  | Some (Num n) => Some (Num (n + 1))
  | _ => Some NaN
  end.

(** [_.get(intelligence, "system.state")] and its siblings; [intelligence]
    is [contentMap[item.globalId]] and may itself be [undefined]. *)
Definition get_system (intelligence : option Report.t) : option Report.System :=
  match intelligence with
  | Some r => Report.system r
  | None => None
  end.
Definition get_state (intelligence : option Report.t) : option string :=
  match get_system intelligence with
  | Some s => Report.state s
  | None => None
  end.
Definition get_failuresReason (intelligence : option Report.t) : option string :=
  match get_system intelligence with
  | Some s => Report.failuresReason s
  | None => None
  end.
Definition get_producer {A} (field : Attempt.t → option A)
    (intelligence : option Report.t) : option A :=
  match get_system intelligence with
  | Some s =>
    match Report.producer s with
    | Some p => field p
    | None => None
    end
  | None => None
  end.

(** The guard of the [if] in the loop body: the intelligence is retried. *)
Definition retries (MAX_FAIL_NUMBER_FOR_INTELLIGENCE : Z)
    (item : Intelligence.t) (intelligence : option Report.t) : bool :=
  bool_decide (or_zero (Intelligence.failuresNumber (Intelligence.system item))
               < MAX_FAIL_NUMBER_FOR_INTELLIGENCE)
  && bool_decide (get_state intelligence ≠ Some INTELLIGENCE_STATE.finished).

(** The [then] branch: the document pushed on [failedIntelligences].  [t1]
    and [t2] are the two readings of [Date.now()]. *)
Definition retryUpdate (t1 t2 : Z) (item : Intelligence.t)
    (intelligence : option Report.t) : Update.t :=
  let n := Intelligence.failuresNumber (Intelligence.system item) in
  let n' := if falsy_number n then Some (Num 1) else plus_one n in
  Update.mk (Intelligence.globalId item) t1 t2
    (match get_state intelligence with
     | Some v => if truthy (Some v) then v else INTELLIGENCE_STATE.failed
     | None => INTELLIGENCE_STATE.failed
     end)
    n'
    (get_failuresReason intelligence)
    (Attempt.mk (get_producer Attempt.globalId intelligence)
                (get_producer Attempt.type intelligence)
                (get_producer Attempt.startedAt intelligence)
                (get_producer Attempt.endedAt intelligence)).

(** The [else] branch: the record pushed on [intelligenceHistory].  Reading
    [contentMap[item.globalId].system.producer] and then the fields of
    [passedProducer] throws when any link of the chain is [undefined]. *)
Definition terminalRecord (t1 t2 : Z) (item : Intelligence.t)
    (intelligence : option Report.t) : outcome Intelligence.t :=
  let s := Intelligence.system item in
  let failing :=
    bool_decide (get_state intelligence ≠ Some INTELLIGENCE_STATE.finished) in
  let n := if failing then plus_one (Intelligence.failuresNumber s)
           else Intelligence.failuresNumber s in
  let reason := if failing then get_failuresReason intelligence
                else Intelligence.failuresReason s in
  let st := match get_state intelligence with
            | Some v => v
            | None => INTELLIGENCE_STATE.finished
            end in
  match intelligence with
  | None => Throw (TypeError "contentMap[item.globalId].system")
  | Some r =>
    match Report.system r with
    | None => Throw (TypeError "contentMap[item.globalId].system.producer")
    | Some rs =>
      match Report.producer rs with
      | None => Throw (TypeError "passedProducer.globalId")
      | Some passedProducer =>
        Return
          (Intelligence.mk None None (Intelligence.globalId item)
             (Intelligence.mkSystem (Some st) n reason (Some t1) (Some t2)
                (Some (Attempt.mk (Attempt.globalId passedProducer)
                                  (Attempt.type passedProducer)
                                  (Attempt.startedAt passedProducer)
                                  (Attempt.endedAt passedProducer)))
                (Intelligence.securityKey s))
             (Intelligence.payload item))
      end
    end
  end.

(** The report names the producer that made the attempt
    ([system.producer] is there). *)
Definition carries_producer (intelligence : option Report.t) : bool :=
  match get_system intelligence with
  | Some s => bool_decide (is_Some (Report.producer s))
  | None => false
  end.

(** The three arrays the first loop fills. *)
Record Acc := mkAcc {
  failedIntelligences : list Update.t;
  intelligenceHistory : list Intelligence.t;
  gids : list string
}.

(** The first [for] loop.  [Date_now k] is the [k]-th reading of the clock
    made by the call; every iteration reads it twice. *)
Fixpoint classifyAll (MAX_FAIL_NUMBER_FOR_INTELLIGENCE : Z) (Date_now : nat → Z)
    (contentMap : gmap string Report.t) (k : nat)
    (intelligences : list Intelligence.t) (acc : Acc) : outcome Acc :=
  match intelligences with
  | [] => Return acc
  | item :: rest =>
    let intelligence := contentMap !! Intelligence.globalId item in
    if retries MAX_FAIL_NUMBER_FOR_INTELLIGENCE item intelligence then
      classifyAll MAX_FAIL_NUMBER_FOR_INTELLIGENCE Date_now contentMap (S (S k)) rest
        (mkAcc (failedIntelligences acc
                  ++ [retryUpdate (Date_now k) (Date_now (S k)) item intelligence])
               (intelligenceHistory acc) (gids acc))
    else
      match terminalRecord (Date_now k) (Date_now (S k)) item intelligence with
      | Throw e => Throw e
      | Return h =>
        classifyAll MAX_FAIL_NUMBER_FOR_INTELLIGENCE Date_now contentMap (S (S k)) rest
          (mkAcc (failedIntelligences acc) (intelligenceHistory acc ++ [h])
                 (gids acc ++ [Intelligence.globalId item]))
      end
  end.

(** What the first loop has put in [failedIntelligences] ([us]) and in
    [intelligenceHistory] ([hs]) once it is through [items]: every element
    comes from one of the items, by the branch its guard selects, and every
    item has left an element. *)
Definition classified (MAX_FAIL_NUMBER_FOR_INTELLIGENCE : Z)
    (contentMap : gmap string Report.t) (items : list Intelligence.t)
    (us : list Update.t) (hs : list Intelligence.t) : Prop :=
  (∀ u, u ∈ us → ∃ item t1 t2,
      item ∈ items
      ∧ retries MAX_FAIL_NUMBER_FOR_INTELLIGENCE item
          (contentMap !! Intelligence.globalId item) = true
      ∧ u = retryUpdate t1 t2 item (contentMap !! Intelligence.globalId item))
  ∧ (∀ h, h ∈ hs → ∃ item t1 t2,
      item ∈ items
      ∧ retries MAX_FAIL_NUMBER_FOR_INTELLIGENCE item
          (contentMap !! Intelligence.globalId item) = false
      ∧ terminalRecord t1 t2 item (contentMap !! Intelligence.globalId item)
        = Return h)
  ∧ (∀ item, item ∈ items →
      if retries MAX_FAIL_NUMBER_FOR_INTELLIGENCE item
           (contentMap !! Intelligence.globalId item)
      then (∃ t1 t2,
        retryUpdate t1 t2 item (contentMap !! Intelligence.globalId item) ∈ us)
      else ∃ t1 t2 h,
        terminalRecord t1 t2 item (contentMap !! Intelligence.globalId item)
        = Return h ∧ h ∈ hs).

(** The second loop: [failuresReason] is blanked on a record whose state is
    FINISHED, when it holds a truthy value. *)
Definition clearReason (h : Intelligence.t) : Intelligence.t :=
  let s := Intelligence.system h in
  if bool_decide (Intelligence.state s = Some INTELLIGENCE_STATE.finished)
     && truthy (Intelligence.failuresReason s)
  then Intelligence.mk (Intelligence.id h) (Intelligence._id h)
         (Intelligence.globalId h)
         (Intelligence.mkSystem (Intelligence.state s)
            (Intelligence.failuresNumber s) (Some "")
            (Intelligence.modified s) (Intelligence.endedAt s)
            (Intelligence.producer s) (Intelligence.securityKey s))
         (Intelligence.payload h)
  else h.

(** [contentMap[item.globalId] = item] for every element of [content], in
    order: a later report for the same id replaces an earlier one. *)
Definition mkContentMap (content : list Report.t) : gmap string Report.t :=
  foldl (λ m item, <[Report.globalId item := item]> m) ∅ content.

Definition updateIntelligences (MAX_FAIL_NUMBER_FOR_INTELLIGENCE : Z)
    (Date_now : nat → Z) (content : list Report.t)
    (securityKey : option string) (db : DB) : outcome unit * DB :=
  let contentMap := mkContentMap content in
  let gids0 := Report.globalId <$> content in
  let intelligences := getIntelligencesDB gids0 securityKey db in
  match intelligences with
  | [] => (Return (), db)
  | _ =>
    match classifyAll MAX_FAIL_NUMBER_FOR_INTELLIGENCE Date_now contentMap 0
            intelligences (mkAcc [] [] []) with
    | Throw e => (Throw e, db)
    | Return acc =>
      let db1 := match failedIntelligences acc with
                 | [] => db
                 | _ => updateEachIntelligencesDB (failedIntelligences acc) db
                 end in
      let history := clearReason <$> intelligenceHistory acc in
      let db2 := addIntelligenceHistoryDB history db1 in
      (Return (), deleteIntelligencesDB (gids acc) securityKey db2)
    end
  end.

(** The report [report] about one intelligence, delivered [k] times in a row
    ([updateIntelligences] called [k] times with the same one-element batch). *)
Definition reportRepeatedly (MAX_FAIL_NUMBER_FOR_INTELLIGENCE : Z)
    (Date_now : nat → Z) (report : Report.t) (securityKey : option string)
    (k : nat) (db : DB) : DB :=
  Nat.iter k
    (λ db, (updateIntelligences MAX_FAIL_NUMBER_FOR_INTELLIGENCE Date_now
              [report] securityKey db).2)
    db.
End RetryEngine.

(** ** Admission and dispatch: [waitUntilTopTask], [getProducer],
    [getIntelligences] *)

Module Producer.
Record System := mkSystem {
  serialId : option string;
  state : option string;
  securityKey : option string;
  lastPing : option Z
}.
Record t := mk {
  _id : option string;
  globalId : string;
  type : option string;
  system : System
}.
End Producer.

(** The partial document [getProducer] hands to [updateProducerDB]:
    [{system: {lastPing, serialId}}], each field present or not. *)
Module ProducerUpdate.
Record t := mk {
  lastPing : option Z;
  serialId : option string
}.
End ProducerUpdate.

Module Dispatch.
Import TasksJobQueue TasksJobQueueCtrl.

(** How the promise of [waitUntilTopTask] was settled. *)
Inductive settled :=
| Resolve (v : bool)
| Reject (v : bool).

(** What surrounds one call of [getIntelligences]: the clock, the other
    actors on the ticket table (other requests, the housekeeping sweep), and
    the availability of the ticket repository.
    - [Date_now 0] is the reading taken when the wait starts, [Date_now k]
      the one the [k]-th firing of the interval timer would take, and
      [Date_now (S k)] the one [getProducer] takes when the wait settled at
      firing [k];
    - [others k] is what the other actors did to the table since the
      previous firing (since the insertion, for [k = 1]);
    - [find_up k] tells whether the query of the [k]-th firing is answered;
    - [insert_up], [release_up], [cleanup_up] do the same for the insertion,
      for the [removeTaskJob] that ends the [try] block and for the one in the
      [catch] block;
    - [row_id] and [row_stamp] are the key and the creation stamp the storage
      gives to the inserted row.
    Between the end of the wait and the release nobody else is taken to touch
    the table. *)
Record Env := mkEnv {
  Date_now : nat → Z;
  others : nat → table → table;
  find_up : nat → bool;
  insert_up : bool;
  release_up : bool;
  cleanup_up : bool;
  row_id : Z;
  row_stamp : Z
}.

(** One firing of the timer callback of [waitUntilTopTask]: [Some] when it
    settles the promise.  When [getTopTaskJob] throws, the exception leaves
    the callback; the promise and the timer are left as they are. *)
Definition firing (TASK_JOB_TIMEOUT startTime : Z) (globalId : string)
    (up : bool) (now : Z) (q : table) : option settled :=
  match getTopTaskJob up q with
  | Throw _ => None
  | Return None => Some (Reject false)
  | Return (Some job) =>
    if bool_decide (global_id job = "") then Some (Reject false)
    else if bool_decide (global_id job = globalId) then Some (Resolve true)
    else if bool_decide (now - startTime > TASK_JOB_TIMEOUT)
         then Some (Reject false)
    else None
  end.

(** The timer fires every 100 ms until a firing settles the promise; [fuel]
    bounds the number of firings looked at, [None] means that none of them
    settled it.  The result carries the table as that firing saw it and the
    number of that firing. *)
Fixpoint firings (TASK_JOB_TIMEOUT : Z) (E : Env) (globalId : string)
    (fuel k : nat) (q : table) : option (settled * table * nat) :=
  match fuel with
  | O => None
  | S fuel' =>
    let q' := others E k q in
    match firing TASK_JOB_TIMEOUT (Date_now E 0) globalId
                 (find_up E k) (Date_now E k) q' with
    | Some s => Some (s, q', k)
    | None => firings TASK_JOB_TIMEOUT E globalId fuel' (S k) q'
    end
  end.

Definition waitUntilTopTask (TASK_JOB_TIMEOUT : Z) (E : Env) (fuel : nat)
    (globalId : string) (q : table) : option (settled * table * nat) :=
  firings TASK_JOB_TIMEOUT E globalId fuel 1 q.

(** The table as the [n]-th of the firings that start at number [k] sees it. *)
Fixpoint seen (E : Env) (n k : nat) (q : table) : table :=
  match n with
  | O => q
  | S n' => seen E n' (S k) (others E k q)
  end.

Section Collaborators.
(** The producer directory and the intelligence collection behind
    [Producer.ctrl] and [IntelligenceAndHistory.ctrl], and the helpers of
    lodash and [util/utils]: none is among the sources, none is constrained. *)
Context {Store : Type}.
Variable getProducerByGlobalIdDB :
  string → option string → Store → outcome (option Producer.t).
Variable updateProducerDB :
  string → option string → ProducerUpdate.t → Store → outcome unit * Store.
Variable getIntelligencesForProducerDB :
  Producer.t → option string → Store → outcome (list Intelligence.t) * Store.
Variable generateGlobalId : string → string.
Variable omit : Producer.t → list string → list string → Producer.t.
Variable toUpper : string → string.
Variable trim : string → string.
Variable REQUESTED_WITH_ENGINE_UI : string.
Variable PRODUCER_STATE_active : string.
Variable TASK_JOB_TIMEOUT : Z.

(** lodash turns [undefined] into the empty string first. *)
Definition toUpper_ (s : option string) : string :=
  match s with Some v => toUpper v | None => "" end.
Definition trim_ (s : option string) : string :=
  match s with Some v => trim v | None => "" end.

Definition is_truthy (s : option string) : bool :=
  match s with
  | Some v => bool_decide (v ≠ "")
  | None => false
  end.

(** [getProducer(gid, securityKey, serialId, jobId, requestedWith, type)];
    [now] is the reading of [Date.now()] for [lastPing]. *)
Definition getProducer (gid : string)
    (securityKey serialId jobId requestedWith type : option string)
    (now : Z) (st : Store) : outcome Producer.t * Store :=
  if bool_decide (gid = "") then (Throw (HTTPError 400 "00144000001" []), st)
  else
    match getProducerByGlobalIdDB gid securityKey st with
    | Throw e => (Throw e, st)
    | Return None => (Throw (HTTPError 404 "00144040001" [Some gid]), st)
    | Return (Some producer) =>
      if is_truthy type
         && bool_decide (toUpper_ (Producer.type producer) ≠ toUpper_ type)
      then (Throw (HTTPError 400 "00144000004"
                     [Some gid; type; Producer.type producer]), st)
      else if is_truthy (Producer.serialId (Producer.system producer))
              && is_truthy serialId
              && bool_decide (Producer.serialId (Producer.system producer)
                              ≠ serialId)
      then (Throw (HTTPError 403 "00144030001" [Some gid]), st)
      else
        let updateProducer :=
          ProducerUpdate.mk
            (if bool_decide (requestedWith ≠ Some REQUESTED_WITH_ENGINE_UI)
             then Some now else None)
            (if is_truthy type && is_truthy serialId
                && negb (is_truthy (Producer.serialId (Producer.system producer)))
             then serialId else None) in
        match updateProducerDB gid securityKey updateProducer st with
        | (Throw e, st') => (Throw e, st')
        | (Return _, st') => (Return producer, st')
        end
    end.

(** "avoid UI side send undefined or null as string" *)
Definition normalize (securityKey : option string) : option string :=
  if bool_decide (securityKey = Some "undefined")
     || bool_decide (securityKey = Some "null")
  then None else securityKey.

(** The test that guards the error 00054000001:
    [_.trim(producerSecurityKey) !== _.trim(securityKey)], once the stored key
    went through the same normalisation as the supplied one. *)
Definition keysDiffer (stored securityKey : option string) : bool :=
  let producerSecurityKey := normalize stored in
  bool_decide (trim_ producerSecurityKey ≠ trim_ securityKey).

(** The part of the [try] block of [getIntelligences] that follows the wait;
    [k] is the firing that ended the wait. *)
Definition dispatch (E : Env) (k : nat) (taskJobGlobalId producerGid : string)
    (securityKey : option string) (q : table) (st : Store)
    : outcome (list Intelligence.t) * (table * Store) :=
  let securityKey := normalize securityKey in
  match getProducer producerGid securityKey None None None None
          (Date_now E (S k)) st with
  | (Throw e, st1) => (Throw e, (q, st1))
  | (Return producerConfig, st1) =>
    if keysDiffer (Producer.securityKey (Producer.system producerConfig))
                  securityKey then
      (Throw (HTTPError 400 "00054000001" [Some producerGid; securityKey]),
       (q, st1))
    else
      let producerConfig := omit producerConfig ["_id"; "securityKey"] ["system"] in
      if bool_decide (toUpper_ (Producer.state (Producer.system producerConfig))
                      ≠ toUpper PRODUCER_STATE_active)
      then (Throw (HTTPError 400 "00054000002" [Some producerGid]), (q, st1))
      else
        match getIntelligencesForProducerDB producerConfig securityKey st1 with
        | (Throw e, st2) => (Throw e, (q, st2))
        | (Return intelligences, st2) =>
          match removeTaskJob (release_up E) taskJobGlobalId q with
          | (Throw e, q') => (Throw e, (q', st2))
          | (Return _, q') => (Return intelligences, (q', st2))
          end
        end
  end.

(** The [try] block of [getIntelligences]; [None] when the wait is not over
    after [fuel] firings. *)
Definition getIntelligences_try (E : Env) (fuel : nat)
    (taskJobGlobalId producerGid : string) (securityKey : option string)
    (q : table) (st : Store)
    : option (outcome (list Intelligence.t) * (table * Store)) :=
  match addATaskJob (insert_up E) (row_id E) (row_stamp E)
          taskJobGlobalId producerGid q with
  | (Throw e, q1) => Some (Throw e, (q1, st))
  | (Return _, q1) =>
    match waitUntilTopTask TASK_JOB_TIMEOUT E fuel taskJobGlobalId q1 with
    | None => None
    | Some (Reject v, q2, _) => Some (Throw (Thrown v), (q2, st))
    | Some (Resolve _, q2, k) =>
      Some (dispatch E k taskJobGlobalId producerGid securityKey q2 st)
    end
  end.

(** [getIntelligences(producerGid, securityKey)]: the [try] block, and the
    [catch] block that removes the ticket and throws the error again (or the
    error of the removal, when the removal itself fails). *)
Definition getIntelligences (E : Env) (fuel : nat) (producerGid : string)
    (securityKey : option string) (q : table) (st : Store)
    : option (outcome (list Intelligence.t) * (table * Store)) :=
  let taskJobGlobalId := generateGlobalId "taskjob" in
  match getIntelligences_try E fuel taskJobGlobalId producerGid securityKey q st with
  | None => None
  | Some (Return intelligences, w) => Some (Return intelligences, w)
  | Some (Throw err, (q', st')) =>
    match removeTaskJob (cleanup_up E) taskJobGlobalId q' with
    | (Throw e, q'') => Some (Throw e, (q'', st'))
    | (Return _, q'') => Some (Throw err, (q'', st'))
    end
  end.
End Collaborators.
End Dispatch.

(** ** Creating intelligences: [addIntelligences] *)

(** An intelligence as a retailer submits it and as [addIntelligences] hands
    it to the collection.  [payload] stands for the fields the function does
    not look at (url, priority, metadata, ...). *)
Module Draft.
Record Retailer := mkRetailer {
  retailerGlobalId : option string;
  retailerState : option string
}.
Record System := mkSystem {
  created : option Z;
  modified : option Z;
  securityKey : option string;
  state : option string;
  producer : option Attempt.t;
  startedAt : option Z;
  endedAt : option Z;
  failuresNumber : option number
}.
Record t := mk {
  dataset : option string;
  system : option System;
  globalId : option string;
  suitableProducers : option (list string);
  retailer : option Retailer;
  payload : list (string * string)
}.
End Draft.

Module Registration.

(** What the callback of [intelligences.map] leaves for one element: the
    document, whether [validateIntelligence] found it valid, and the key it
    sets in [retailerGlobalIds]. *)
Record Prepared := mkPrepared {
  doc : Draft.t;
  valid : bool;
  retailerKey : string
}.

Section Collaborators.
(** Lodash, [util/utils], [util/constants], the retailers' helpers and the
    collection are not among the sources: they are parameters.
    - [merge a b] is [_.merge({}, a, b)];
    - [generateGlobalId k prefix] is what the [k]-th call of
      [utils.generateGlobalId(prefix)] returns;
    - [ownKeys l] is the order in which [for ... in] enumerates the keys of
      an object whose properties were assigned in the order [l]. *)
Context {Store Result : Type}.
Variable merge : Draft.t → Draft.t → Draft.t.
Variable toUpper : string → string.
Variable generateGlobalId : nat → string → string.
Variable validateIntelligence : Draft.t → bool.
Variable ownKeys : list string → list string.
Variable getRetailer : string → Store → outcome unit * Store.
Variable addIntelligencesDB : list Draft.t → Store → outcome Result * Store.
Variable DEFAULT_INTELLIGENCE : Draft.t.
Variable PRODUCER_STATE_configured : string.
Variable RETAILER_STATE_active : string.

(** The property name [retailerGlobalIds[...]] is given: the global id, or
    the text "undefined". *)
Definition propertyKey (globalId : option string) : string :=
  match globalId with Some g => g | None => "undefined" end.

(** The callback of [intelligences.map]; [k] numbers the element, [t1] and
    [t2] are its two readings of [Date.now()]. *)
Definition prepare (k : nat) (t1 t2 : Z) (securityKey : option string)
    (intelligence : Draft.t) : outcome Prepared :=
  let intelligence :=
    Draft.mk None None (Some (generateGlobalId k "intelligence"))
      (Draft.suitableProducers intelligence) (Draft.retailer intelligence)
      (Draft.payload intelligence) in
  let intelligence := merge DEFAULT_INTELLIGENCE intelligence in
  match Draft.system intelligence with
  | None => Throw (TypeError "intelligence.system.created")
  | Some s =>
    match Draft.suitableProducers intelligence with
    | None => Throw (TypeError "intelligence.suitableProducers.map")
    | Some producerTypes =>
      match Draft.retailer intelligence with
      | None => Throw (TypeError "intelligence.retailer.state")
      | Some r =>
        let r :=
          match Draft.retailerState r with
          | Some v => if bool_decide (v = "")
                      then Draft.mkRetailer (Draft.retailerGlobalId r)
                             (Some RETAILER_STATE_active)
                      else r
          | None => Draft.mkRetailer (Draft.retailerGlobalId r)
                      (Some RETAILER_STATE_active)
          end in
        let validated :=
          Draft.mk (Draft.dataset intelligence)
            (Some (Draft.mkSystem (Some t1) (Some t2) securityKey
                     (Some PRODUCER_STATE_configured)
                     (Draft.producer s) (Draft.startedAt s) (Draft.endedAt s)
                     (Draft.failuresNumber s)))
            (Draft.globalId intelligence)
            (Some (toUpper <$> producerTypes)) (Some r)
            (Draft.payload intelligence) in
        Return
          (mkPrepared
             (Draft.mk (Draft.dataset intelligence)
                (Some (Draft.mkSystem (Some t1) (Some t2) securityKey
                         (Some PRODUCER_STATE_configured) None None None None))
                (Draft.globalId intelligence)
                (Some (toUpper <$> producerTypes)) (Some r)
                (Draft.payload intelligence))
             (validateIntelligence validated)
             (propertyKey (Draft.retailerGlobalId r)))
      end
    end
  end.

(** [intelligences.map(...)]: an exception in the callback ends the map. *)
Fixpoint prepareAll (Date_now : nat → Z) (securityKey : option string)
    (k : nat) (intelligences : list Draft.t) : outcome (list Prepared) :=
  match intelligences with
  | [] => Return []
  | intelligence :: rest =>
    match prepare k (Date_now (2 * k)%nat) (Date_now (2 * k + 1)%nat)
            securityKey intelligence with
    | Throw e => Throw e
    | Return row =>
      match prepareAll Date_now securityKey (S k) rest with
      | Throw e => Throw e
      | Return rows => Return (row :: rows)
      end
    end
  end.

(** "make sure retailer existed": one [getRetailer] per key, in the order of
    the enumeration; the first that throws ends the loop. *)
Fixpoint checkRetailers (keys : list string) (st : Store) : outcome unit * Store :=
  match keys with
  | [] => (Return (), st)
  | retailerGlobalId :: rest =>
    match getRetailer retailerGlobalId st with
    | (Throw e, st') => (Throw e, st')
    | (Return _, st') => checkRetailers rest st'
    end
  end.

Definition addIntelligences (Date_now : nat → Z) (intelligences : list Draft.t)
    (securityKey : option string) (st : Store) : outcome Result * Store :=
  match prepareAll Date_now securityKey 0 intelligences with
  | Throw e => (Throw e, st)
  | Return rows =>
    if bool_decide (Exists (λ row, valid row = false) rows) then
      (Throw (HTTPError 400 "00064000001" []), st)
    else
      match checkRetailers (ownKeys (retailerKey <$> rows)) st with
      | (Throw e, st') => (Throw e, st')
      | (Return _, st') => addIntelligencesDB (doc <$> rows) st'
      end
  end.
End Collaborators.
End Registration.

(** ** The housekeeping job [checkSOIStatus] *)

Module CheckSOIStatus.
(** A row of the collection of SOIs, as far as the job reads it. *)
Record SOI := mkSOI {
  global_id : string;
  body : list (string * string)
}.

(** How a run of the job ends: whether [done()] was called, and what was
    handed to [logger.error]. *)
Record Run := mkRun {
  done_called : bool;
  logged : option exn
}.

Section Collaborators.
(** [find], [updateSOIStatus] and the configuration are not among the
    sources.  [find bound st] is the query [{modified_at: {$lt: bound}}] on
    the collection of SOIs. *)
Context {Store : Type}.
Variable find : Z → Store → outcome (list SOI).
Variable updateSOIStatus : string → SOI → Store → outcome unit * Store.
Variable SOI_STATUS_CHECK_TIME : Z.

(** The [for] loop: the SOIs one after the other, until one update throws. *)
Fixpoint updateEach (sois : list SOI) (st : Store) : outcome unit * Store :=
  match sois with
  | [] => (Return (), st)
  | soi :: rest =>
    match updateSOIStatus (global_id soi) soi st with
    | (Throw e, st') => (Throw e, st')
    | (Return _, st') => updateEach rest st'
    end
  end.

(** The job: the exception of the query or of an update is logged and
    swallowed; [done()] is the last statement of the [try] block. *)
Definition checkSOIStatus (now : Z) (st : Store) : Run * Store :=
  match find (now - SOI_STATUS_CHECK_TIME) st with
  | Throw e => (mkRun false (Some e), st)
  | Return sois =>
    match updateEach sois st with
    | (Throw e, st') => (mkRun false (Some e), st')
    | (Return _, st') => (mkRun true None, st')
    end
  end.
End Collaborators.
End CheckSOIStatus.

(** ** Environments and data of the examples *)

Module Scenario.
Import TasksJobQueue Dispatch.

(** Nobody else touches the ticket table, the storage answers every call and
    the timer fires exactly every 100 ms. *)
Definition quiet : Env :=
  mkEnv (λ k, 100 * Z.of_nat k) (λ _ q, q) (λ _, true) true true true 10 0.

(** As [quiet], but the ticket table answers no query while the call waits. *)
Definition outage : Env :=
  mkEnv (λ k, 100 * Z.of_nat k) (λ _ q, q) (λ _, false) true true true 10 0.

(** As [quiet], but the storage does not execute the delete of the [catch]
    block of [getIntelligences]. *)
Definition stuck : Env :=
  mkEnv (λ k, 100 * Z.of_nat k) (λ _ q, q) (λ _, true) true true false 10 0.

(** A ticket of another producer: it is older than any ticket [quiet]
    inserts and nobody removes it. *)
Definition stale : TasksJobQueue.t := mk 1 "taskjob-other" "producer-9" (-5).

(** As [quiet], but the housekeeping sweep runs (timeout 1000 ms, clock at
    450) just before the fifth firing; and a table for it: the caller's
    ticket between an older and a younger one. *)
Definition sweeping : Env :=
  mkEnv (λ k, 100 * Z.of_nat k)
        (λ k q, if bool_decide (k = 5%nat)
                then TasksJobQueueCtrl.removeTimeoutJob true 450 1000 q else q)
        (λ _, true) true true true 10 (-600).
Definition crowded : table :=
  [mk 1 "taskjob-old" "producer-7" (-700);
   mk 2 "taskjob-mine" "producer-1" (-600);
   mk 3 "taskjob-new" "producer-8" 50].

(** A directory with one producer, active and without security key, and an
    intelligence collection that has nothing to hand out. *)
Definition producer1 : Producer.t :=
  Producer.mk (Some "5f0c") "producer-1" (Some "HEADLESSBROWSER")
    (Producer.mkSystem None (Some "ACTIVE") None None).
Definition directory (gid : string) (securityKey : option string) (st : unit)
    : outcome (option Producer.t) :=
  Return (if bool_decide (gid = "producer-1") then Some producer1 else None).
Definition ping (gid : string) (securityKey : option string)
    (u : ProducerUpdate.t) (st : unit) : outcome unit * unit :=
  (Return (), st).
Definition idle (p : Producer.t) (securityKey : option string) (st : unit)
    : outcome (list Intelligence.t) * unit :=
  (Return [], st).
Definition numbered (prefix : string) : string := prefix +:+ "::1".
Definition keep (p : Producer.t) (top nested : list string) : Producer.t := p.
Definition same (s : string) : string := s.

(** A directory that holds one producer and remembers nothing but the
    serial id stamped on it. *)
Definition connected (serial : option string) : Producer.t :=
  Producer.mk (Some "5f0c") "producer-1" (Some "HEADLESSBROWSER")
    (Producer.mkSystem serial (Some "ACTIVE") None None).
Definition roster (gid : string) (securityKey : option string)
    (st : option string) : outcome (option Producer.t) :=
  Return (if bool_decide (gid = "producer-1") then Some (connected st) else None).
Definition stamp (gid : string) (securityKey : option string)
    (u : ProducerUpdate.t) (st : option string) : outcome unit * option string :=
  (Return (), match ProducerUpdate.serialId u with Some s => Some s | None => st end).

(** [getIntelligences] among these collaborators, with a timeout of 1000 ms. *)
Definition requestWork (E : Env) (fuel : nat) (gid : string)
    (securityKey : option string) (q : table) :=
  getIntelligences directory ping idle numbered keep same same
    "engine-ui" "ACTIVE" 1000 E fuel gid securityKey q ().

Definition attempt0 : Attempt.t :=
  Attempt.mk (Some "producer-0") (Some "HEADLESSBROWSER") (Some 1) (Some 2).
Definition clock0 (k : nat) : Z := 500 + Z.of_nat k.

(** Collaborators for [addIntelligences]: a merge that takes the field of the
    submitted document where it has one, defaults that bring a [system] with
    a leftover [failuresNumber], a validation that wants a retailer id, and
    a retailers' helper that knows one retailer. *)
Definition or_else {A} (x y : option A) : option A :=
  match x with Some _ => x | None => y end.
Definition mergeDraft (a b : Draft.t) : Draft.t :=
  Draft.mk (or_else (Draft.dataset b) (Draft.dataset a))
    (or_else (Draft.system b) (Draft.system a))
    (or_else (Draft.globalId b) (Draft.globalId a))
    (or_else (Draft.suitableProducers b) (Draft.suitableProducers a))
    (or_else (Draft.retailer b) (Draft.retailer a))
    (Draft.payload b).
Definition defaults : Draft.t :=
  Draft.mk None
    (Some (Draft.mkSystem None None None (Some "DRAFT") None None None
             (Some (Num 9))))
    None (Some ["HEADLESSBROWSER"]) None [].
Definition wantsRetailer (d : Draft.t) : bool :=
  match Draft.retailer d with
  | Some r => bool_decide (is_Some (Draft.retailerGlobalId r))
  | None => false
  end.
Definition knownRetailer (gid : string) (st : list Draft.t)
    : outcome unit * list Draft.t :=
  if bool_decide (gid = "retailer-1") then (Return (), st)
  else (Throw (HTTPError 404 "00014040001" [Some gid]), st).
Definition insertAll (docs : list Draft.t) (st : list Draft.t)
    : outcome nat * list Draft.t :=
  (Return (length docs), st ++ docs).
Definition counted (k : nat) (prefix : string) : string :=
  prefix +:+ "::" +:+ String.concat "" (replicate k "i").
Definition submitted (retailerGid : option string) : Draft.t :=
  Draft.mk (Some "rows")
    (Some (Draft.mkSystem (Some 1) (Some 1) (Some "forged") (Some "FINISHED")
             (Some attempt0) (Some 1) (Some 2) (Some (Num 5))))
    (Some "chosen-by-caller") (Some ["headlessbrowser"])
    (Some (Draft.mkRetailer retailerGid None)) [("url", "https://example.com")].
Definition register (intelligences : list Draft.t) (st : list Draft.t) :=
  Registration.addIntelligences mergeDraft same counted wantsRetailer
    (λ keys, keys) knownRetailer insertAll defaults "CONFIGURED" "ACTIVE"
    clock0 intelligences (Some "key-1") st.

(** Collaborators for the housekeeping job: three SOIs are due, the update of
    the second one throws, the store is the list of the SOIs updated. *)
Definition soi (g : string) : CheckSOIStatus.SOI := CheckSOIStatus.mkSOI g [].
Definition due (bound : Z) (st : list string) : outcome (list CheckSOIStatus.SOI) :=
  Return [soi "soi-1"; soi "soi-2"; soi "soi-3"].
Definition visit (gid : string) (s : CheckSOIStatus.SOI) (st : list string)
    : outcome unit * list string :=
  if bool_decide (gid = "soi-2")
  then (Throw (HTTPError 500 "00000000000" [Some gid]), st)
  else (Return (), st ++ [gid]).

(** An intelligence as it is created (no [failuresNumber] yet), one that has
    failed twice, what a producer reports about it, and the clock. *)
Definition attempt1 : Attempt.t :=
  Attempt.mk (Some "producer-1") (Some "HEADLESSBROWSER") (Some 5) (Some 6).
Definition created : Intelligence.t :=
  Intelligence.mk (Some 7) None "intel-1"
    (Intelligence.mkSystem (Some "CONFIGURED") None None None None None None)
    [("url", "https://example.com")].
Definition exhausted : Intelligence.t :=
  Intelligence.mk (Some 7) None "intel-1"
    (Intelligence.mkSystem (Some "FAILED") (Some (Num 2)) (Some "timeout")
       (Some 990) (Some 991) (Some attempt1) None)
    [("url", "https://example.com")].
Definition report1 (state : string) (reason : option string) : Report.t :=
  Report.mk "intel-1" (Some (Report.mkSystem (Some state) reason (Some attempt1))).
Definition clock (k : nat) : Z := 1000 + Z.of_nat k.

(** One report FAILED, with the maximum number of failures set to 2. *)
Definition reportFailed (db : IntelligenceAndHistoryCtrl.DB)
    : IntelligenceAndHistoryCtrl.DB :=
  (RetryEngine.updateIntelligences 2 clock [report1 "FAILED" (Some "timeout")]
     None db).2.
End Scenario.

(** * Properties *)

(** ** The ticket table *)

Section TicketOrder.
Import TasksJobQueue TasksJobQueueCtrl.

#[local] Instance job_le_total : Total job_le.
Proof. intros a b; unfold job_le; lia. Qed.

#[local] Instance job_le_trans : Transitive job_le.
Proof. intros a b c; unfold job_le; lia. Qed.

#[local] Instance job_le_refl : Reflexive job_le.
Proof. intros a; unfold job_le; lia. Qed.

Lemma orderBy_perm q : orderBy q ≡ₚ q.
Proof. apply merge_sort_Permutation. Qed.

Lemma orderBy_sorted q : StronglySorted job_le (orderBy q).
Proof. apply StronglySorted_merge_sort; apply _. Qed.

(** The first row of the ordered table is a row of the table, and no row
    comes before it. *)
Lemma getOne_orderBy_least q t :
  getOne (orderBy q) = Some t →
  t ∈ q ∧ ∀ t', t' ∈ q → job_le t t'.
Proof.
  unfold getOne; intros Hhd.
  pose proof (orderBy_perm q) as Hp.
  pose proof (orderBy_sorted q) as Hs.
  destruct (orderBy q) as [|x l] eqn:Eo; simplify_eq/=.
  split.
  - rewrite <- Hp; left.
  - intros t' Ht'. rewrite <- Hp in Ht'.
    apply StronglySorted_inv in Hs as [_ Hall].
    apply elem_of_cons in Ht' as [->|Hin]; [reflexivity|].
    rewrite Forall_forall in Hall; auto.
Qed.

Lemma getOne_orderBy_nonempty q : q ≠ [] → is_Some (getOne (orderBy q)).
Proof.
  intros Hq. unfold getOne.
  destruct (orderBy q) as [|x l] eqn:Eo; [|eauto].
  exfalso; apply Hq. pose proof (orderBy_perm q) as Hp. rewrite Eo in Hp.
  symmetry in Hp. by apply Permutation_nil_r in Hp.
Qed.

(** Rows with distinct keys are told apart by their keys. *)
Lemma NoDup_fmap_inj_on {A B} (f : A → B) (l : list A) x y :
  NoDup (f <$> l) → x ∈ l → y ∈ l → f x = f y → x = y.
Proof.
  induction l as [|a l IH]; simpl; intros Hnd Hx Hy Hf.
  - by apply elem_of_nil in Hx.
  - apply NoDup_cons in Hnd as [Hna Hnd].
    apply elem_of_cons in Hx as [->|Hx]; apply elem_of_cons in Hy as [->|Hy];
      auto.
    + exfalso; apply Hna. rewrite Hf. by apply list_elem_of_fmap_2.
    + exfalso; apply Hna. rewrite <- Hf. by apply list_elem_of_fmap_2.
Qed.

Lemma job_le_antisym_key a b : job_le a b → job_le b a → id a = id b.
Proof. unfold job_le; lia. Qed.

Lemma getTopTaskJob_unique q t :
  NoDup (id <$> q) →
  getTopTaskJob true q = Return (Some t) →
  t ∈ q ∧ (∀ t', t' ∈ q → job_le t t') ∧ (∀ t', t' ∈ q → job_le t' t → t' = t).
Proof.
  intros Hnd Htop. unfold getTopTaskJob in Htop. simplify_eq.
  match goal with H : getOne _ = _ |- _ => apply getOne_orderBy_least in H as [Hin Hle] end.
  repeat split; auto.
  intros t' Hin' Hle'.
  eapply (NoDup_fmap_inj_on id q); eauto.
  apply job_le_antisym_key; auto.
Qed.

(** A row that precedes every other row of a table with distinct keys is its
    head. *)
Lemma getTopTaskJob_least q t :
  NoDup (id <$> q) → t ∈ q → (∀ t', t' ∈ q → job_le t t') →
  getTopTaskJob true q = Return (Some t).
Proof.
  intros Hnd Hin Hle.
  destruct (getOne_orderBy_nonempty q) as [h Hh].
  { intros ->. by apply elem_of_nil in Hin. }
  unfold getTopTaskJob. rewrite Hh. do 2 f_equal.
  destruct (getOne_orderBy_least q h Hh) as [Hhin Hhle].
  eapply (NoDup_fmap_inj_on id q); eauto.
  apply job_le_antisym_key; auto.
Qed.
End TicketOrder.

Section TicketTable.
Import TasksJobQueue TasksJobQueueCtrl.

(** C2, as amended.  The head of the admission queue that [getTopTaskJob]
    returns is the unique ticket of the table that is least for creation time
    ascending, ties broken by the storage's row key [id] ascending (not by
    the ticket's [global_id]); an empty table has no head.  For tickets A
    created at an earlier time than B and C, B and C created at the same
    time and C's row key greater than B's, the heads are A, then B, then C. *)
Theorem getTopTaskJob_head_by_created_at_then_id :
  getTopTaskJob true [] = Return None
  ∧ (∀ q, NoDup (id <$> q) → q ≠ [] →
       ∃ t, getTopTaskJob true q = Return (Some t) ∧ t ∈ q
            ∧ (∀ t', t' ∈ q → job_le t t')
            ∧ (∀ t', t' ∈ q → job_le t' t → t' = t))
  ∧ (∀ A B C q3 q2,
       created_at A < created_at B → created_at B = created_at C →
       id B < id C → q3 ≡ₚ [A; B; C] → q2 ≡ₚ [B; C] →
       getTopTaskJob true q3 = Return (Some A)
       ∧ getTopTaskJob true q2 = Return (Some B)
       ∧ getTopTaskJob true [C] = Return (Some C)).
Proof.
  split; [reflexivity|]. split.
  - intros q Hnd Hne.
    destruct (getOne_orderBy_nonempty q Hne) as [t Ht].
    exists t.
    assert (Htop : getTopTaskJob true q = Return (Some t))
      by (unfold getTopTaskJob; by rewrite Ht).
    split; [exact Htop|]. by apply getTopTaskJob_unique.
  - intros A B C q3 q2 HAB HBC Hid H3 H2.
    assert (Hhead : ∀ q l, q ≡ₚ l → l ≠ [] →
              ∃ h, getTopTaskJob true q = Return (Some h) ∧ h ∈ l
                   ∧ ∀ t', t' ∈ l → job_le h t').
    { intros q l Hp Hl.
      destruct (getOne_orderBy_nonempty q) as [h Hh].
      { intros ->. symmetry in Hp. by apply Permutation_nil_r in Hp. }
      exists h. unfold getTopTaskJob. rewrite Hh. split; [done|].
      destruct (getOne_orderBy_least q h Hh) as [Hin Hle].
      split; [by rewrite <- Hp|]. intros t' Ht'. apply Hle. by rewrite Hp. }
    repeat split.
    + destruct (Hhead q3 _ H3 ltac:(done)) as (h & -> & Hin & Hle).
      do 2 f_equal.
      assert (HA : job_le h A) by (apply Hle; left).
      unfold job_le in HA.
      apply elem_of_cons in Hin as [->|Hin]; [done|].
      apply elem_of_cons in Hin as [->|Hin]; [lia|].
      apply list_elem_of_singleton in Hin as ->. lia.
    + destruct (Hhead q2 _ H2 ltac:(done)) as (h & -> & Hin & Hle).
      do 2 f_equal.
      assert (HB : job_le h B) by (apply Hle; left).
      unfold job_le in HB.
      apply elem_of_cons in Hin as [->|Hin]; [done|].
      apply list_elem_of_singleton in Hin as ->. lia.
Qed.

Lemma getTopTaskJob_head_witness :
  ∃ t, getTopTaskJob true
         [mk 3 "taskjob-c" "producer-3" 1; mk 1 "taskjob-a" "producer-1" 0;
          mk 2 "taskjob-b" "producer-2" 1]
       = Return (Some t)
       ∧ global_id t = "taskjob-a".
Proof.
  destruct (proj1 (proj2 getTopTaskJob_head_by_created_at_then_id)
              [mk 3 "taskjob-c" "producer-3" 1; mk 1 "taskjob-a" "producer-1" 0;
               mk 2 "taskjob-b" "producer-2" 1])
    as (t & Htop & _).
  - compute_done.
  - discriminate.
  - exists t. split; [exact Htop|].
    vm_compute in Htop. by injection Htop as <-.
Defined.

(** C2 as the design document words it does not hold: with the tie broken by
    [global_id], the ticket inserted first in a millisecond is not the least
    one when its [global_id] is the greater; and for A at 0, B and C at 1
    with C's [global_id] greater than B's, the head after A is C when C was
    inserted before B. *)
Lemma head_by_globalId_refuted :
  ¬ (∀ q t, NoDup (id <$> q) → getTopTaskJob true q = Return (Some t) →
       ∀ t', t' ∈ q → ticket_le_by_globalId t t')
  ∧ (let A := mk 1 "taskjob-a" "producer-1" 0 in
     let C := mk 2 "taskjob-z" "producer-3" 1 in
     let B := mk 3 "taskjob-b" "producer-2" 1 in
     String.ltb (global_id B) (global_id C) = true
     ∧ getTopTaskJob true [A; C; B] = Return (Some A)
     ∧ getTopTaskJob true [C; B] = Return (Some C)).
Proof.
  split; [|by vm_compute].
  intros H.
  specialize (H [mk 1 "taskjob-b" "producer-1" 1; mk 2 "taskjob-a" "producer-2" 1]
                (mk 1 "taskjob-b" "producer-1" 1)).
  specialize (H ltac:(compute_done) eq_refl
                (mk 2 "taskjob-a" "producer-2" 1) ltac:(right; left)).
  unfold ticket_le_by_globalId in H; simpl in H.
  destruct H as [H|[_ H]]; [lia|]. vm_compute in H. discriminate.
Qed.

(** The two texts of a date: the bound as [toISOString] writes it, a stored
    date as the store keeps it; and the [RangeError] beyond the last valid
    time value. *)
Example toISOString_and_datetime :
  JSDate.toISOString 1793707200000 = Some "2026-11-03T12:00:00.000Z"
  ∧ JSDate.toISOString 951782399999 = Some "2000-02-28T23:59:59.999Z"
  ∧ JSDate.toISOString (-550) = Some "1969-12-31T23:59:59.450Z"
  ∧ JSDate.toISOString 8640000000000001 = None
  ∧ Storage.datetime 1793707199000 = "2026-11-03 11:59:59.000"
  ∧ Storage.lessThan 1793707199000 "2026-11-03T11:00:00.000Z" = true
  ∧ Storage.lessThan 1793707199000 "2026-11-02T11:00:00.000Z" = false.
Proof. by vm_compute. Qed.

(** In the order of the character codes a blank comes before [T]: of two
    texts that agree up to there, the one that goes on with the blank is the
    smaller. *)
Lemma ltb_blank_before_T (d x y : string) :
  String.ltb (d +:+ " " +:+ x) (d +:+ "T" +:+ y) = true.
Proof.
  unfold String.ltb. induction d as [|a d IH]; simpl; [done|].
  unfold Ascii.compare. by rewrite N.compare_refl.
Qed.

(** The text of a stored date is smaller than the ISO text of any instant of
    the same day, whatever the times of the day are. *)
Lemma lessThan_same_day c b :
  -8640000000000000 ≤ b ≤ 8640000000000000 →
  0 ≤ JSDate.YearFromTime b ≤ 9999 →
  JSDate.Day c = JSDate.Day b →
  ∃ timeoutCreatedAt, JSDate.toISOString b = Some timeoutCreatedAt
                      ∧ Storage.lessThan c timeoutCreatedAt = true.
Proof.
  intros Hvalid Hyear Hday.
  unfold JSDate.toISOString. rewrite bool_decide_eq_true_2 by done.
  eexists; split; [done|].
  unfold Storage.lessThan, Storage.datetime, JSDate.year.
  rewrite bool_decide_eq_true_2 by done.
  unfold JSDate.monthAndDate, JSDate.YearFromTime, JSDate.MonthFromTime,
    JSDate.DateFromTime.
  rewrite Hday. apply ltb_blank_before_T.
Qed.

(** C9, at the failing inputs.  The bound of the sweep reaches the store as
    ISO text, and the store compares a stored date with it as text: for a bound
    that is a valid date of the years 0000 to 9999, every ticket created on
    the UTC day of the bound is deleted, also when it was created after the
    bound, so that its age does not exceed the timeout; a table all of whose
    tickets are of that day is emptied. *)
Theorem removeTimeoutJob_sweeps_the_day_of_the_bound now TIMEOUT q :
  -8640000000000000 ≤ now - TIMEOUT ≤ 8640000000000000 →
  0 ≤ JSDate.YearFromTime (now - TIMEOUT) ≤ 9999 →
  (∀ j, j ∈ q → JSDate.Day (created_at j) = JSDate.Day (now - TIMEOUT) →
        j ∉ removeTimeoutJob true now TIMEOUT q)
  ∧ ((∀ j, j ∈ q → JSDate.Day (created_at j) = JSDate.Day (now - TIMEOUT)) →
     removeTimeoutJob true now TIMEOUT q = []).
Proof.
  intros Hvalid Hyear.
  assert (Hgone : ∀ j, j ∈ q →
            JSDate.Day (created_at j) = JSDate.Day (now - TIMEOUT) →
            j ∉ removeTimeoutJob true now TIMEOUT q).
  { intros j Hj Hday Hin.
    destruct (lessThan_same_day (created_at j) (now - TIMEOUT) Hvalid Hyear Hday)
      as (bound & Hbound & Hlt).
    unfold removeTimeoutJob in Hin. rewrite Hbound in Hin.
    apply list_elem_of_filter in Hin as [Hkept _]. congruence. }
  split; [exact Hgone|].
  intros Hall.
  destruct (removeTimeoutJob true now TIMEOUT q) as [|j rest] eqn:Hsweep; [done|].
  exfalso.
  assert (Hq : j ∈ q).
  { assert (Hin : j ∈ removeTimeoutJob true now TIMEOUT q)
      by (rewrite Hsweep; left).
    unfold removeTimeoutJob in Hin.
    destruct (JSDate.toISOString (now - TIMEOUT)); [|done].
    by apply list_elem_of_filter in Hin as [_ ?]. }
  apply (Hgone j Hq (Hall j Hq)). left.
Qed.

(** The sweep of 2026-11-03T12:00:00.000Z with a timeout of one hour deletes
    a ticket that is one second old. *)
Lemma removeTimeoutJob_sweeps_the_day_of_the_bound_witness :
  removeTimeoutJob true 1793707200000 3600000
    [mk 1 "taskjob-a" "producer-1" 1793707199000] = [].
Proof.
  apply (proj2 (removeTimeoutJob_sweeps_the_day_of_the_bound
                  1793707200000 3600000
                  [mk 1 "taskjob-a" "producer-1" 1793707199000]
                  ltac:(lia) ltac:(vm_compute; split; discriminate))).
  intros j Hj. apply list_elem_of_singleton in Hj as ->. reflexivity.
Defined.

(** [removeTaskJob] is idempotent, and does nothing to a table that does not
    hold the ticket. *)
Lemma removeTaskJob_absent g q :
  (∀ j, j ∈ q → global_id j ≠ g) → removeTaskJob true g q = (Return (), q).
Proof.
  intros Habs. unfold removeTaskJob. f_equal.
  induction q as [|j q IH]; [done|].
  rewrite filter_cons. destruct (decide (global_id j ≠ g)) as [_|Hn].
  - f_equal. apply IH. intros j' Hj'. apply Habs. by right.
  - exfalso; apply Hn, Habs. left.
Qed.

Lemma removeTaskJob_removes up g q j :
  up = true → j ∈ (removeTaskJob up g q).2 → global_id j ≠ g.
Proof.
  intros -> Hin. simpl in Hin. by apply list_elem_of_filter in Hin as [? _].
Qed.

Lemma removeTaskJob_idempotent g q :
  removeTaskJob true g (removeTaskJob true g q).2
  = (Return (), (removeTaskJob true g q).2).
Proof.
  apply removeTaskJob_absent. intros j. by apply removeTaskJob_removes.
Qed.
End TicketTable.

(** ** Waiting for the head of the queue *)

Section Waiting.
Import TasksJobQueue TasksJobQueueCtrl Dispatch.

Lemma firings_None_continue T E g fuel fuel' k q :
  firings T E g fuel k q = None →
  firings T E g (fuel + fuel') k q
  = firings T E g fuel' (k + fuel) (seen E fuel k q).
Proof.
  revert k q. induction fuel as [|fuel IH]; intros k q Hnone; simpl.
  - by rewrite Nat.add_0_r.
  - simpl in Hnone.
    destruct (firing T (Date_now E 0) g (find_up E k) (Date_now E k) (others E k q));
      [discriminate|].
    rewrite IH by done. f_equal. lia.
Qed.

Lemma seen_last E n k q :
  seen E (S n) k q = others E (k + n) (seen E n k q).
Proof.
  revert k q. induction n as [|n IH]; intros k q.
  - simpl. by rewrite Nat.add_0_r.
  - change (seen E (S (S n)) k q) with (seen E (S n) (S k) (others E k q)).
    rewrite IH. simpl. do 2 f_equal. lia.
Qed.

Lemma firing_empty T start g now : firing T start g true now [] = Some (Reject false).
Proof. reflexivity. Qed.

(** C6, as amended.  The wait ends at once, with the same rejection value
    [false] as a timeout, at the first firing whose query finds the ticket
    table empty (every ticket evicted, the caller's included), whatever time
    has elapsed.  Nothing is promised when only the caller's ticket is
    missing and other tickets remain. *)
Theorem waitUntilTopTask_rejects_on_empty_table T E g q n m :
  waitUntilTopTask T E n g q = None →
  find_up E (S n) = true →
  seen E (S n) 1 q = [] →
  waitUntilTopTask T E (n + S m) g q = Some (Reject false, [], S n).
Proof.
  unfold waitUntilTopTask. intros Hnone Hup Hempty.
  rewrite firings_None_continue by done.
  rewrite seen_last in Hempty. simpl in *.
  rewrite Hempty, Hup. reflexivity.
Qed.

Lemma waitUntilTopTask_rejects_on_empty_table_witness :
  waitUntilTopTask 1000 Scenario.quiet (0 + 1) "taskjob-mine" []
  = Some (Reject false, [], 1%nat).
Proof.
  apply (waitUntilTopTask_rejects_on_empty_table 1000 Scenario.quiet
           "taskjob-mine" [] 0 0); reflexivity.
Defined.

(** C6 as the design document words it does not hold: with the caller's
    ticket gone and the ticket of another producer still in the table, the
    first firing settles nothing, and the wait lasts until the timeout has
    elapsed (here 1000 ms, at the eleventh firing).  So it is when the sweep
    evicts the caller's ticket before the fifth firing and leaves a younger
    ticket: the wait goes on for six more firings. *)
Lemma waitUntilTopTask_missing_ticket_waits :
  ¬ (∀ T E g q n m,
       waitUntilTopTask T E n g q = None →
       find_up E (S n) = true →
       (∀ j, j ∈ seen E (S n) 1 q → global_id j ≠ g) →
       ∃ q', waitUntilTopTask T E (n + S m) g q = Some (Reject false, q', S n))
  ∧ waitUntilTopTask 1000 Scenario.quiet 10 "taskjob-mine" [Scenario.stale] = None
  ∧ waitUntilTopTask 1000 Scenario.quiet 11 "taskjob-mine" [Scenario.stale]
    = Some (Reject false, [Scenario.stale], 11%nat)
  ∧ global_id <$> seen Scenario.sweeping 4 1 Scenario.crowded
    = ["taskjob-old"; "taskjob-mine"; "taskjob-new"]
  ∧ global_id <$> seen Scenario.sweeping 5 1 Scenario.crowded = ["taskjob-new"]
  ∧ waitUntilTopTask 1000 Scenario.sweeping 10 "taskjob-mine" Scenario.crowded = None
  ∧ waitUntilTopTask 1000 Scenario.sweeping 11 "taskjob-mine" Scenario.crowded
    = Some (Reject false, [mk 3 "taskjob-new" "producer-8" 50], 11%nat).
Proof.
  split; [|by vm_compute].
  intros H.
  destruct (H 1000 Scenario.quiet "taskjob-mine" [Scenario.stale] 0%nat 0%nat)
    as [q' Hq'].
  - reflexivity.
  - reflexivity.
  - intros j Hj. simpl in Hj. apply list_elem_of_singleton in Hj as ->.
    discriminate.
  - vm_compute in Hq'. discriminate.
Qed.

(** C8, at the failing input.  While the ticket table answers no query,
    every firing ends in the exception of [getTopTaskJob], before the
    comparison with the caller's ticket and before the test of the elapsed
    time: however many firings are looked at, the promise is not settled. *)
Theorem waitUntilTopTask_never_settles_during_outage T fuel g q :
  waitUntilTopTask T Scenario.outage fuel g q = None.
Proof.
  unfold waitUntilTopTask. generalize 1%nat as k.
  revert q. induction fuel as [|fuel IH]; intros q k; [done|].
  simpl. apply IH.
Qed.

(** One firing whose query is answered: it resolves exactly when the caller's
    ticket is the head, and otherwise rejects exactly when the table is empty
    (or its head has no [global_id]) or more than the timeout has elapsed. *)
Lemma firing_answered T start g now q :
  firing T start g true now q =
  match getOne (orderBy q) with
  | None => Some (Reject false)
  | Some job =>
    if bool_decide (global_id job = "") then Some (Reject false)
    else if bool_decide (global_id job = g) then Some (Resolve true)
    else if bool_decide (now - start > T) then Some (Reject false)
    else None
  end.
Proof. unfold firing, getTopTaskJob. by destruct (getOne (orderBy q)). Qed.

(** The firing that follows [n] firings which settled nothing decides alone. *)
Lemma waitUntilTopTask_next T E g q n :
  waitUntilTopTask T E n g q = None →
  waitUntilTopTask T E (n + 1) g q
  = match firing T (Date_now E 0) g (find_up E (S n)) (Date_now E (S n))
            (seen E (S n) 1 q) with
    | Some s => Some (s, seen E (S n) 1 q, S n)
    | None => None
    end.
Proof.
  unfold waitUntilTopTask. intros Hnone.
  rewrite firings_None_continue by done.
  rewrite seen_last. simpl. by destruct (firing _ _ _ _ _ _).
Qed.

Lemma firing_overdue T start g now q :
  now - start > T → is_Some (firing T start g true now q).
Proof.
  intros Hlate. rewrite firing_answered.
  destruct (getOne (orderBy q)) as [job|]; [|eauto].
  repeat case_bool_decide; eauto. lia.
Qed.

(** When every query is answered and the timer keeps its interval, the wait
    is over after at most [T / 100 + 1] firings. *)
Lemma firings_settle T E g fuel k q :
  (∀ i, find_up E i = true) →
  (∀ i, Date_now E 0 + 100 * Z.of_nat i ≤ Date_now E i) →
  T < 100 * (Z.of_nat k + Z.of_nat fuel) →
  ∃ s q' k', firings T E g (S fuel) k q = Some (s, q', k')
             ∧ (k ≤ k' ≤ k + fuel)%nat.
Proof.
  intros Hup Hclock. revert k q.
  induction fuel as [|fuel IH]; intros k q Hlate.
  - simpl. rewrite Hup.
    destruct (firing_overdue T (Date_now E 0) g (Date_now E k) (others E k q))
      as [s Hs].
    { specialize (Hclock k). lia. }
    rewrite Hs. exists s, (others E k q), k. split; [done|lia].
  - change (firings T E g (S (S fuel)) k q) with
      (let q' := others E k q in
       match firing T (Date_now E 0) g (find_up E k) (Date_now E k) q' with
       | Some s => Some (s, q', k)
       | None => firings T E g (S fuel) (S k) q'
       end).
    simpl.
    destruct (firing T (Date_now E 0) g (find_up E k) (Date_now E k) (others E k q))
      as [s|].
    + exists s, (others E k q), k. split; [done|lia].
    + destruct (IH (S k) (others E k q)) as (s & q' & k' & Hs & Hk); [lia|].
      exists s, q', k'. split; [done|lia].
Qed.

Lemma waitUntilTopTask_settles T E g q :
  0 ≤ T →
  (∀ i, find_up E i = true) →
  (∀ i, Date_now E 0 + 100 * Z.of_nat i ≤ Date_now E i) →
  ∃ s q' k, waitUntilTopTask T E (S (Z.to_nat (T / 100))) g q = Some (s, q', k)
            ∧ (1 ≤ k ≤ S (Z.to_nat (T / 100)))%nat.
Proof.
  intros HT Hup Hclock. unfold waitUntilTopTask.
  destruct (firings_settle T E g (Z.to_nat (T / 100)) 1 q Hup Hclock)
    as (s & q' & k & Hs & Hk).
  - rewrite Z2Nat.id by (apply Z.div_pos; lia).
    pose proof (Z.mul_succ_div_gt T 100 ltac:(lia)). lia.
  - exists s, q', k. split; [done|lia].
Qed.

Lemma firings_quiet_table T E g fuel k q s q' k' :
  (∀ i t, others E i t = t) →
  firings T E g fuel k q = Some (s, q', k') → q' = q.
Proof.
  intros Hq. revert k q. induction fuel as [|fuel IH]; intros k q; [done|].
  simpl. rewrite Hq.
  destruct (firing T (Date_now E 0) g (find_up E k) (Date_now E k) q).
  - by intros [= _ -> _].
  - apply IH.
Qed.
End Waiting.

(** ** Requesting work *)

Section RequestWork.
Import TasksJobQueue TasksJobQueueCtrl Dispatch.
Context {Store : Type}.
Variable getProducerByGlobalIdDB :
  string → option string → Store → outcome (option Producer.t).
Variable updateProducerDB :
  string → option string → ProducerUpdate.t → Store → outcome unit * Store.
Variable getIntelligencesForProducerDB :
  Producer.t → option string → Store → outcome (list Intelligence.t) * Store.
Variable generateGlobalId : string → string.
Variable omit : Producer.t → list string → list string → Producer.t.
Variable toUpper trim : string → string.
Variable REQUESTED_WITH_ENGINE_UI PRODUCER_STATE_active : string.
Variable TASK_JOB_TIMEOUT : Z.

Let dispatch' :=
  dispatch getProducerByGlobalIdDB updateProducerDB getIntelligencesForProducerDB
    omit toUpper trim REQUESTED_WITH_ENGINE_UI PRODUCER_STATE_active.
Let getIntelligences' :=
  getIntelligences getProducerByGlobalIdDB updateProducerDB
    getIntelligencesForProducerDB generateGlobalId omit toUpper trim
    REQUESTED_WITH_ENGINE_UI PRODUCER_STATE_active TASK_JOB_TIMEOUT.

(** No row that survives the delete of [removeTaskJob] has the identifier. *)
Ltac ticket_gone :=
  let j := fresh "j" in
  let Hj := fresh "Hj" in
  intros j Hj; simpl in Hj;
  repeat (apply list_elem_of_filter in Hj as [Hj _]); exact Hj.

(** What the rest of the [try] block does to the ticket table: nothing when it
    throws before the release or when the release fails, the release
    otherwise, and always the release when it returns. *)
Lemma dispatch_table E k g gid sk q st res q' st' :
  dispatch' E k g gid sk q st = (res, (q', st')) →
  match res with
  | Return _ => q' = (removeTaskJob true g q).2
  | Throw _ => q' = q
  end.
Proof.
  unfold dispatch', dispatch, removeTaskJob. intros Hd.
  repeat (case_match; simplify_eq/=); done.
Qed.

(** Where the ticket table of a call that has come to an end comes from: the
    call returned, or it threw and the storage executed the delete of the
    [catch] block; then the last thing done to the table was the delete of the
    ticket, on a table that, when nobody else touched it, was the table before
    the call with or without the ticket of the call. *)
Lemma getIntelligences_ended E fuel gid sk q st res q' st' :
  getIntelligences' E fuel gid sk q st = Some (res, (q', st')) →
  cleanup_up E = true ∨ (∃ v, res = Return v) →
  ∃ q0, q' = (removeTaskJob true (generateGlobalId "taskjob") q0).2
        ∧ ((∀ i t, others E i t = t) →
           q0 = q
           ∨ q0 = q ++ [mk (row_id E) (generateGlobalId "taskjob") gid (row_stamp E)]).
Proof.
  unfold getIntelligences', getIntelligences, getIntelligences_try, addATaskJob.
  intros Hrun Hexit.
  assert (Hcatch : ∀ (err : exn) (t : table) (st0 : Store),
            match removeTaskJob (cleanup_up E) (generateGlobalId "taskjob") t with
            | (Throw e, q'') => Some (Throw e, (q'', st0))
            | (Return _, q'') => Some (Throw err, (q'', st0))
            end = Some (res, (q', st')) →
            q' = (removeTaskJob true (generateGlobalId "taskjob") t).2).
  { intros err t st0. destruct Hexit as [->|[v ->]]; simpl.
    - by intros [= <- <- <-].
    - destruct (cleanup_up E); simpl; discriminate. }
  destruct (insert_up E).
  - destruct (waitUntilTopTask _ _ _ _ _) as [[[[v|v] q2] k]|] eqn:Hw; [| |done].
    + fold dispatch' in Hrun.
      destruct (dispatch' E k _ gid sk q2 st) as [[r|e] [q3 st3]] eqn:Hd;
        apply dispatch_table in Hd; subst q3.
      * injection Hrun as <- <- <-. exists q2. split; [done|].
        intros Hquiet. apply firings_quiet_table in Hw; auto.
      * exists q2. split; [by apply (Hcatch e q2 st3)|].
        intros Hquiet. apply firings_quiet_table in Hw; auto.
    + exists q2. split; [by apply (Hcatch (Thrown v) q2 st)|].
      intros Hquiet. apply firings_quiet_table in Hw; auto.
  - exists q. split; [|by left].
    by apply (Hcatch (http500 "TasksJobQueue.ctrl->addATaskJob") q st).
Qed.

(** After its delete, the table holds no ticket with the identifier; and it
    is the table before the call when the identifier was fresh. *)
Lemma getIntelligences_ended_table E fuel gid sk q st res q' st' :
  getIntelligences' E fuel gid sk q st = Some (res, (q', st')) →
  cleanup_up E = true ∨ (∃ v, res = Return v) →
  (∀ j, j ∈ q' → global_id j ≠ generateGlobalId "taskjob")
  ∧ ((∀ j, j ∈ q → global_id j ≠ generateGlobalId "taskjob") →
     (∀ i t, others E i t = t) →
     q' = q ∧ length q' = length q).
Proof.
  intros Hrun Hexit.
  destruct (getIntelligences_ended E fuel gid sk q st res q' st' Hrun Hexit)
    as (q0 & -> & Hq0).
  split; [ticket_gone|].
  intros Hfresh Hquiet.
  cut ((removeTaskJob true (generateGlobalId "taskjob") q0).2 = q);
    [by intros ->|].
  pose proof (removeTaskJob_absent _ q Hfresh) as Hq.
  destruct (Hq0 Hquiet) as [->| ->].
  - by rewrite Hq.
  - simpl. rewrite filter_app, filter_cons, filter_nil. simpl.
    rewrite decide_False by (intros Hn; by apply Hn).
    rewrite app_nil_r. by injection Hq.
Qed.

(** When the ticket table answers the queries of the waiting call and the
    timer keeps its interval, [getIntelligences] comes to an end within
    [TASK_JOB_TIMEOUT / 100 + 1] firings. *)
Lemma getIntelligences_comes_to_an_end E gid sk q st :
  0 ≤ TASK_JOB_TIMEOUT →
  (∀ i, find_up E i = true) →
  (∀ i, Date_now E 0 + 100 * Z.of_nat i ≤ Date_now E i) →
  is_Some (getIntelligences' E (S (Z.to_nat (TASK_JOB_TIMEOUT / 100))) gid sk q st).
Proof.
  intros HT Hup Hclock.
  unfold getIntelligences', getIntelligences, getIntelligences_try.
  destruct (addATaskJob _ _ _ _ _ _) as [[[]|e] q1].
  - destruct (waitUntilTopTask_settles TASK_JOB_TIMEOUT E
                (generateGlobalId "taskjob") q1 HT Hup Hclock)
      as (s & q2 & k & -> & _).
    destruct s as [v|v].
    + destruct (dispatch _ _ _ _ _ _ _ _ E k _ gid sk q2 st) as [[r|e] [q3 st3]];
        [eauto|].
      destruct (removeTaskJob _ _ _) as [[[]|e'] q4]; eauto.
    + destruct (removeTaskJob _ _ _) as [[[]|e'] q4]; eauto.
  - destruct (removeTaskJob _ _ _) as [[[]|e'] q4]; eauto.
Qed.

(** C7, as amended.  A call of [getIntelligences] whose polls are answered,
    with a timer that keeps its interval, comes to an end within
    [TASK_JOB_TIMEOUT / 100 + 1] firings.  However a call comes to an end, by
    returning, by the rejection of the wait or by the exception of any
    collaborator (a failed insertion and a failed first release among them),
    the table then holds no ticket with the identifier the call generated,
    provided that, when the call ends by throwing, the storage executed the
    delete of the [catch] block; when moreover the identifier was fresh and
    nobody else touched the table meanwhile, the table is what it was before
    the call, so the number of tickets is the one before the call.
    [removeTaskJob] changes nothing on a table that does not hold the ticket,
    so that releasing twice is as releasing once. *)
Theorem getIntelligences_releases_its_ticket E gid sk q st :
  (0 ≤ TASK_JOB_TIMEOUT →
   (∀ i, find_up E i = true) →
   (∀ i, Date_now E 0 + 100 * Z.of_nat i ≤ Date_now E i) →
   ∃ res q' st',
     getIntelligences' E (S (Z.to_nat (TASK_JOB_TIMEOUT / 100))) gid sk q st
     = Some (res, (q', st')))
  ∧ (∀ fuel res q' st',
       getIntelligences' E fuel gid sk q st = Some (res, (q', st')) →
       cleanup_up E = true ∨ (∃ v, res = Return v) →
       (∀ j, j ∈ q' → global_id j ≠ generateGlobalId "taskjob")
       ∧ ((∀ j, j ∈ q → global_id j ≠ generateGlobalId "taskjob") →
          (∀ i t, others E i t = t) →
          q' = q ∧ length q' = length q))
  ∧ (∀ g t, (∀ j, j ∈ t → global_id j ≠ g) →
            removeTaskJob true g t = (Return (), t))
  ∧ (∀ g t, removeTaskJob true g (removeTaskJob true g t).2
            = (Return (), (removeTaskJob true g t).2)).
Proof.
  split; [|split; [|split]];
    [| |apply removeTaskJob_absent|apply removeTaskJob_idempotent].
  - intros HT Hup Hclock.
    destruct (getIntelligences_comes_to_an_end E gid sk q st HT Hup Hclock)
      as [[res [q' st']] Hrun].
    by exists res, q', st'.
  - intros fuel res q' st' Hrun Hexit.
    exact (getIntelligences_ended_table E fuel gid sk q st res q' st' Hrun Hexit).
Qed.

Lemma normalize_literals :
  normalize (Some "undefined") = None ∧ normalize (Some "null") = None
  ∧ normalize None = None.
Proof. by vm_compute. Qed.

Lemma dispatch_normalized E k g gid sk sk' q st :
  normalize sk = normalize sk' →
  dispatch' E k g gid sk q st = dispatch' E k g gid sk' q st.
Proof. intros Hn. unfold dispatch', dispatch. by rewrite Hn. Qed.

Lemma getIntelligences_normalized E fuel gid sk sk' q st :
  normalize sk = normalize sk' →
  getIntelligences' E fuel gid sk q st = getIntelligences' E fuel gid sk' q st.
Proof.
  intros Hn. unfold getIntelligences', getIntelligences, getIntelligences_try.
  destruct (addATaskJob _ _ _ _ _ _) as [[[]|e] q1]; [|done].
  destruct (waitUntilTopTask _ _ _ _ _) as [[[[v|v] q2] k]|]; [|done|done].
  fold dispatch'. by rewrite (dispatch_normalized E k _ gid sk sk').
Qed.

(** C10.  A call with the literal string "undefined" or "null" as security
    key is the call without a security key: same result, same ticket table
    and same store afterwards, whatever the collaborators do; and in the
    comparison of the keys a stored "undefined" or "null" counts as an absent
    stored key. *)
Theorem getIntelligences_undefined_null_as_absent E fuel gid q st :
  getIntelligences' E fuel gid (Some "undefined") q st
  = getIntelligences' E fuel gid None q st
  ∧ getIntelligences' E fuel gid (Some "null") q st
    = getIntelligences' E fuel gid None q st
  ∧ (∀ securityKey,
       keysDiffer trim (Some "undefined") securityKey = keysDiffer trim None securityKey
       ∧ keysDiffer trim (Some "null") securityKey = keysDiffer trim None securityKey).
Proof.
  destruct normalize_literals as (Hu & Hn & H0).
  split; [|split].
  - apply getIntelligences_normalized. by rewrite Hu, H0.
  - apply getIntelligences_normalized. by rewrite Hn, H0.
  - intros securityKey. unfold keysDiffer. by rewrite Hu, Hn, H0.
Qed.
End RequestWork.

(** ** Retry accounting and archival *)

Section RetryAccounting.
Import IntelligenceAndHistoryCtrl RetryEngine.

(** *** The content map *)

Lemma foldl_insert_lookup (content : list Report.t) (m : gmap string Report.t) g r :
  foldl (λ m item, <[Report.globalId item := item]> m) m content !! g = Some r →
  m !! g = Some r ∨ (r ∈ content ∧ Report.globalId r = g).
Proof.
  revert m. induction content as [|c content IH]; intros m H; simpl in *.
  - by left.
  - apply IH in H as [H|[? ?]].
    + destruct (decide (Report.globalId c = g)) as [<-|Hne].
      * rewrite lookup_insert_eq in H. simplify_eq. right. split; [left|done].
      * rewrite lookup_insert_ne in H by done. by left.
    + right. split; [by right|done].
Qed.

Lemma mkContentMap_lookup content g r :
  mkContentMap content !! g = Some r → r ∈ content ∧ Report.globalId r = g.
Proof.
  intros H. apply foldl_insert_lookup in H as [H|H]; [|done].
  by rewrite lookup_empty in H.
Qed.

Lemma foldl_insert_is_Some (content : list Report.t) (m : gmap string Report.t) g :
  is_Some (m !! g) ∨ g ∈ Report.globalId <$> content →
  is_Some (foldl (λ m item, <[Report.globalId item := item]> m) m content !! g).
Proof.
  revert m. induction content as [|c content IH]; intros m H; simpl in *.
  - destruct H as [H|H]; [done|]. by apply elem_of_nil in H.
  - apply IH. destruct H as [H|H].
    + left. destruct (decide (Report.globalId c = g)) as [<-|Hne].
      * rewrite lookup_insert_eq. eauto.
      * by rewrite lookup_insert_ne.
    + apply elem_of_cons in H as [->|H]; [|by right].
      left. rewrite lookup_insert_eq. eauto.
Qed.

Lemma mkContentMap_reported content g :
  g ∈ Report.globalId <$> content →
  ∃ r, mkContentMap content !! g = Some r ∧ r ∈ content.
Proof.
  intros Hg.
  destruct (foldl_insert_is_Some content ∅ g (or_intror Hg)) as [r Hr].
  exists r. split; [done|]. by apply mkContentMap_lookup in Hr as [? _].
Qed.

(** *** One intelligence *)

Lemma terminalRecord_Return t1 t2 item intelligence h :
  terminalRecord t1 t2 item intelligence = Return h →
  Intelligence.globalId h = Intelligence.globalId item
  ∧ Intelligence.securityKey (Intelligence.system h)
    = Intelligence.securityKey (Intelligence.system item)
  ∧ Intelligence.failuresNumber (Intelligence.system h)
    = (if bool_decide (get_state intelligence ≠ Some INTELLIGENCE_STATE.finished)
       then plus_one (Intelligence.failuresNumber (Intelligence.system item))
       else Intelligence.failuresNumber (Intelligence.system item))
  ∧ Intelligence.state (Intelligence.system h)
    = Some (default INTELLIGENCE_STATE.finished (get_state intelligence))
  ∧ Intelligence.failuresReason (Intelligence.system h)
    = (if bool_decide (get_state intelligence ≠ Some INTELLIGENCE_STATE.finished)
       then get_failuresReason intelligence
       else Intelligence.failuresReason (Intelligence.system item)).
Proof.
  unfold terminalRecord. intros H.
  repeat (case_match; simplify_eq/=); done.
Qed.

Lemma terminalRecord_carries t1 t2 item intelligence :
  carries_producer intelligence = true →
  ∃ h, terminalRecord t1 t2 item intelligence = Return h.
Proof.
  unfold carries_producer, get_system, terminalRecord. intros H.
  destruct intelligence as [r|]; [|done].
  destruct (Report.system r) as [rs|]; [|done].
  destruct (Report.producer rs) as [p|]; [eauto|].
  apply bool_decide_eq_true in H. by destruct H.
Qed.

Lemma retryUpdate_failuresNumber t1 t2 item intelligence :
  Update.failuresNumber (retryUpdate t1 t2 item intelligence)
  = Some (Num (or_zero (Intelligence.failuresNumber (Intelligence.system item)) + 1)).
Proof.
  unfold retryUpdate; simpl.
  destruct (Intelligence.failuresNumber (Intelligence.system item)) as [[|n]|];
    simpl; try done.
  case_bool_decide; by subst.
Qed.

Lemma clearReason_fields h :
  Intelligence.globalId (clearReason h) = Intelligence.globalId h
  ∧ Intelligence.state (Intelligence.system (clearReason h))
    = Intelligence.state (Intelligence.system h)
  ∧ Intelligence.failuresNumber (Intelligence.system (clearReason h))
    = Intelligence.failuresNumber (Intelligence.system h)
  ∧ (Intelligence.state (Intelligence.system h) = Some INTELLIGENCE_STATE.finished →
     truthy (Intelligence.failuresReason (Intelligence.system (clearReason h))) = false)
  ∧ (Intelligence.state (Intelligence.system h) ≠ Some INTELLIGENCE_STATE.finished →
     Intelligence.failuresReason (Intelligence.system (clearReason h))
     = Intelligence.failuresReason (Intelligence.system h)).
Proof.
  unfold clearReason.
  destruct (bool_decide _ && truthy _) eqn:Hc; simpl.
  - apply andb_true_iff in Hc as [Hs _]. apply bool_decide_eq_true in Hs.
    repeat split; auto. intros Hn. by destruct Hn.
  - apply andb_false_iff in Hc as [Hs|Ht].
    + apply bool_decide_eq_false in Hs. repeat split; auto. intros Hf. by destruct Hs.
    + repeat split; auto.
Qed.

(** *** The first loop *)

Lemma classified_nil MAX cm : classified MAX cm [] [] [].
Proof.
  repeat split; intros x Hx; by apply elem_of_nil in Hx.
Qed.

Lemma classified_retry MAX cm item items us hs t1 t2 :
  retries MAX item (cm !! Intelligence.globalId item) = true →
  classified MAX cm items us hs →
  classified MAX cm (item :: items)
    (retryUpdate t1 t2 item (cm !! Intelligence.globalId item) :: us) hs.
Proof.
  intros Hr (Hu & Hh & Hi). repeat split.
  - intros u Hin. apply elem_of_cons in Hin as [->|Hin].
    + exists item, t1, t2. split; [left|done].
    + destruct (Hu u Hin) as (i & a & b & ? & ? & ?).
      exists i, a, b. split; [by right|done].
  - intros h Hin. destruct (Hh h Hin) as (i & a & b & ? & ? & ?).
    exists i, a, b. split; [by right|done].
  - intros i Hin. apply elem_of_cons in Hin as [->|Hin].
    + rewrite Hr. exists t1, t2. left.
    + specialize (Hi i Hin). destruct (retries MAX i _).
      * destruct Hi as (a & b & ?). exists a, b. by right.
      * done.
Qed.

Lemma classified_terminal MAX cm item items us hs t1 t2 h :
  retries MAX item (cm !! Intelligence.globalId item) = false →
  terminalRecord t1 t2 item (cm !! Intelligence.globalId item) = Return h →
  classified MAX cm items us hs →
  classified MAX cm (item :: items) us (h :: hs).
Proof.
  intros Hr Ht (Hu & Hh & Hi). repeat split.
  - intros u Hin. destruct (Hu u Hin) as (i & a & b & ? & ? & ?).
    exists i, a, b. split; [by right|done].
  - intros h' Hin. apply elem_of_cons in Hin as [->|Hin].
    + exists item, t1, t2. split; [left|done].
    + destruct (Hh h' Hin) as (i & a & b & ? & ? & ?).
      exists i, a, b. split; [by right|done].
  - intros i Hin. apply elem_of_cons in Hin as [->|Hin].
    + rewrite Hr. exists t1, t2, h. split; [done|left].
    + specialize (Hi i Hin). destruct (retries MAX i _).
      * done.
      * destruct Hi as (a & b & h' & ? & ?). exists a, b, h'. split; [done|by right].
Qed.

Lemma classifyAll_Return MAX clock cm k items acc acc' :
  classifyAll MAX clock cm k items acc = Return acc' →
  ∃ us hs,
    failedIntelligences acc' = failedIntelligences acc ++ us
    ∧ intelligenceHistory acc' = intelligenceHistory acc ++ hs
    ∧ gids acc' = gids acc ++ (Intelligence.globalId <$> hs)
    ∧ classified MAX cm items us hs.
Proof.
  revert k acc. induction items as [|item items IH]; intros k acc H; simpl in H.
  - simplify_eq. exists [], []. rewrite !app_nil_r. auto using classified_nil.
  - destruct (retries MAX item _) eqn:Hr.
    + apply IH in H as (us & hs & Hf & Hh & Hg & Hc). simpl in *.
      exists (retryUpdate (clock k) (clock (S k)) item
                (cm !! Intelligence.globalId item) :: us), hs.
      rewrite Hf, Hh, Hg, <- app_assoc. auto using classified_retry.
    + destruct (terminalRecord _ _ item _) as [h|e] eqn:Ht; [|done].
      apply IH in H as (us & hs & Hf & Hh & Hg & Hc). simpl in *.
      exists us, (h :: hs).
      rewrite Hf, Hh, Hg, <- !app_assoc. simpl.
      apply terminalRecord_Return in Ht as Hfields.
      destruct Hfields as (-> & _).
      eauto using classified_terminal.
Qed.

Lemma classifyAll_returns MAX clock cm k items acc :
  (∀ item, item ∈ items →
     carries_producer (cm !! Intelligence.globalId item) = true) →
  ∃ acc', classifyAll MAX clock cm k items acc = Return acc'.
Proof.
  revert k acc. induction items as [|item items IH]; intros k acc Hwf; simpl.
  - eauto.
  - destruct (retries MAX item _).
    + apply IH. intros i Hi. apply Hwf. by right.
    + destruct (terminalRecord_carries (clock k) (clock (S k)) item
                  (cm !! Intelligence.globalId item)) as [h ->].
      { apply Hwf. left. }
      apply IH. intros i Hi. apply Hwf. by right.
Qed.
End RetryAccounting.

Section Archival.
Import IntelligenceAndHistoryCtrl RetryEngine.

(** *** Writing the partial documents back *)

Lemma applyUpdate_globalId u r :
  Intelligence.globalId (applyUpdate u r) = Intelligence.globalId r.
Proof. unfold applyUpdate. by case_decide. Qed.

Lemma applyUpdate_securityKey u r :
  Intelligence.securityKey (Intelligence.system (applyUpdate u r))
  = Intelligence.securityKey (Intelligence.system r).
Proof. unfold applyUpdate. by case_decide. Qed.

Lemma updated_snoc us u r : updated (us ++ [u]) r = applyUpdate u (updated us r).
Proof. unfold updated. by rewrite foldl_app. Qed.

Lemma updated_globalId us r :
  Intelligence.globalId (updated us r) = Intelligence.globalId r.
Proof.
  induction us as [|u us IH] using rev_ind; [done|].
  by rewrite updated_snoc, applyUpdate_globalId.
Qed.

Lemma updated_securityKey us r :
  Intelligence.securityKey (Intelligence.system (updated us r))
  = Intelligence.securityKey (Intelligence.system r).
Proof.
  induction us as [|u us IH] using rev_ind; [done|].
  by rewrite updated_snoc, applyUpdate_securityKey.
Qed.

Lemma updateEach_rows us (rows : list Intelligence.t) :
  foldl (λ rows u, applyUpdate u <$> rows) rows us = updated us <$> rows.
Proof.
  revert rows. induction us as [|u us IH]; intros rows; simpl.
  - unfold updated; simpl. by rewrite list_fmap_id.
  - rewrite IH, <- list_fmap_compose. done.
Qed.

(** A record some document is addressed to carries, afterwards, the
    [failuresNumber] of the documents addressed to it, when they agree. *)
Lemma updated_failuresNumber us r n :
  (∃ u, u ∈ us ∧ Update.globalId u = Intelligence.globalId r) →
  (∀ u, u ∈ us → Update.globalId u = Intelligence.globalId r →
        Update.failuresNumber u = n) →
  Intelligence.failuresNumber (Intelligence.system (updated us r)) = n.
Proof.
  induction us as [|u us IH] using rev_ind; intros (u0 & Hin & Hid) Hall.
  - by apply elem_of_nil in Hin.
  - rewrite updated_snoc. unfold applyUpdate at 1.
    rewrite updated_globalId. case_decide as Hm; simpl.
    + apply Hall; [|done]. apply elem_of_app. right. left.
    + apply IH.
      * apply elem_of_app in Hin as [Hin|Hin]; [eauto|].
        apply list_elem_of_singleton in Hin as ->. by destruct Hm.
      * intros u' Hu'. apply Hall. apply elem_of_app. by left.
Qed.

Lemma filter_all {A} (P : A → Prop) `{∀ x, Decision (P x)} (l : list A) :
  (∀ x, x ∈ l → P x) → filter P l = l.
Proof.
  induction l as [|a l IH]; intros Hall; [done|].
  rewrite filter_cons, decide_True by (apply Hall; left).
  f_equal. apply IH. intros x Hx. apply Hall. by right.
Qed.

(** *** The whole of [updateIntelligences] *)

Lemma updateIntelligences_Return MAX clock content sk db db' :
  updateIntelligences MAX clock content sk db = (Return (), db') →
  ∃ us hs,
    classified MAX (mkContentMap content)
      (getIntelligencesDB (Report.globalId <$> content) sk db) us hs
    ∧ intelligences db'
      = filter (λ i, ¬ (Intelligence.globalId i ∈ (Intelligence.globalId <$> hs)
                        ∧ may_act sk i))
               (updated us <$> intelligences db)
    ∧ intelligences_history db' = intelligences_history db ++ (clearReason <$> hs).
Proof.
  unfold updateIntelligences. intros H.
  destruct (getIntelligencesDB _ sk db) as [|item items] eqn:Hf.
  - simplify_eq. exists [], []. split; [apply classified_nil|]. simpl.
    rewrite app_nil_r. split; [|done].
    rewrite filter_all.
    + unfold updated; simpl. by rewrite list_fmap_id.
    + intros x _ [Hx _]. by apply elem_of_nil in Hx.
  - destruct (classifyAll _ _ _ _ _ _) as [acc|e] eqn:Hc; [|done].
    apply classifyAll_Return in Hc as (us & hs & Hfa & Hhi & Hgi & Hcl).
    destruct acc as [fa hi gi]. simpl in Hfa, Hhi, Hgi. subst fa hi gi.
    simpl in H. injection H as <-. exists us, hs.
    split; [done|].
    destruct us as [|u us]; simpl.
    + split; [|done]. f_equal. unfold updated; simpl.
      symmetry. apply (list_fmap_id (intelligences db)).
    + split; [|done]. f_equal. by rewrite <- (updateEach_rows (u :: us)).
Qed.

Lemma getIntelligencesDB_elem gids sk db item :
  item ∈ getIntelligencesDB gids sk db ↔
  item ∈ intelligences db ∧ Intelligence.globalId item ∈ gids ∧ may_act sk item.
Proof. unfold getIntelligencesDB. rewrite list_elem_of_filter. tauto. Qed.

Lemma updateIntelligences_returns MAX clock content sk db :
  (∀ r, r ∈ content → carries_producer (Some r) = true) →
  ∃ db', updateIntelligences MAX clock content sk db = (Return (), db').
Proof.
  intros Hwf. unfold updateIntelligences.
  destruct (getIntelligencesDB _ sk db) as [|item items] eqn:Hf; [eauto|].
  destruct (classifyAll_returns MAX clock (mkContentMap content) 0
              (item :: items) (mkAcc [] [] [])) as [acc ->]; [|eauto].
  intros i Hi. rewrite <- Hf in Hi.
  apply getIntelligencesDB_elem in Hi as (_ & Hg & _).
  destruct (mkContentMap_reported content _ Hg) as (r & -> & Hr). auto.
Qed.

(** What has become of a fetched intelligence when the call returns. *)
Lemma updateIntelligences_item MAX clock content sk db db' item :
  NoDup (Intelligence.globalId <$> intelligences db) →
  updateIntelligences MAX clock content sk db = (Return (), db') →
  item ∈ getIntelligencesDB (Report.globalId <$> content) sk db →
  ∃ hs,
    intelligences_history db' = intelligences_history db ++ hs
    ∧ if retries MAX item (mkContentMap content !! Intelligence.globalId item)
      then
        ((Intelligence.globalId item ∉ (Intelligence.globalId <$> hs))
         ∧ ∃ i, i ∈ intelligences db'
                ∧ Intelligence.globalId i = Intelligence.globalId item
                ∧ Intelligence.failuresNumber (Intelligence.system i)
                  = Some (Num (or_zero (Intelligence.failuresNumber
                                          (Intelligence.system item)) + 1)))
      else
        (Intelligence.globalId item ∉ (Intelligence.globalId <$> intelligences db'))
        ∧ ∃ h0 t1 t2,
            clearReason h0 ∈ hs
            ∧ terminalRecord t1 t2 item
                (mkContentMap content !! Intelligence.globalId item) = Return h0.
Proof.
  intros Hnd Hrun Hitem.
  apply updateIntelligences_Return in Hrun as (us & hs & (Hu & Hh & Hi) & Hact & Hhist).
  exists (clearReason <$> hs). split; [done|].
  pose proof Hitem as Hitem'.
  apply getIntelligencesDB_elem in Hitem' as (Hin & _ & Hmay).
  assert (Hsame : ∀ item', item' ∈ getIntelligencesDB (Report.globalId <$> content) sk db →
            Intelligence.globalId item' = Intelligence.globalId item → item' = item).
  { intros item' Hin' Hid. apply getIntelligencesDB_elem in Hin' as (Hin' & _).
    by apply (NoDup_fmap_inj_on Intelligence.globalId (intelligences db)). }
  assert (Harch : ∀ h, h ∈ hs →
            Intelligence.globalId h = Intelligence.globalId item →
            retries MAX item (mkContentMap content !! Intelligence.globalId item) = false).
  { intros h Hhin Hid. destruct (Hh h Hhin) as (item' & t1 & t2 & Hin' & Hr & Ht).
    apply terminalRecord_Return in Ht as (Hg & _).
    assert (item' = item) as -> by (apply Hsame; congruence). done. }
  specialize (Hi item Hitem).
  destruct (retries MAX item _) eqn:Hr.
  - assert (Hnot : Intelligence.globalId item ∉ Intelligence.globalId <$> hs).
    { intros Hg. apply list_elem_of_fmap in Hg as (h & Hid & Hhin).
      by specialize (Harch h Hhin (eq_sym Hid)). }
    split.
    + intros Hg. apply list_elem_of_fmap in Hg as (h & Hid & Hhin).
      apply list_elem_of_fmap in Hhin as (h0 & -> & Hh0).
      destruct (clearReason_fields h0) as (Hcg & _). rewrite Hcg in Hid.
      by specialize (Harch h0 Hh0 (eq_sym Hid)).
    + exists (updated us item). rewrite Hact. repeat split.
      * apply list_elem_of_filter. split.
        -- rewrite updated_globalId. by intros [? _].
        -- by apply list_elem_of_fmap_2.
      * apply updated_globalId.
      * destruct Hi as (t1 & t2 & Hin1).
        apply updated_failuresNumber; [eauto|].
        intros u Hin2 Hid.
        destruct (Hu u Hin2) as (item' & a & b & Hin' & _ & ->).
        simpl in Hid. assert (item' = item) as -> by by apply Hsame.
        apply retryUpdate_failuresNumber.
  - destruct Hi as (t1 & t2 & h0 & Ht & Hh0). split.
    + rewrite Hact. intros Hg.
      apply list_elem_of_fmap in Hg as (i & Hid & Hi').
      apply list_elem_of_filter in Hi' as (Hkeep & Hi').
      apply list_elem_of_fmap in Hi' as (r & -> & Hr').
      rewrite updated_globalId in Hid.
      assert (r = item) as ->
        by (by apply (NoDup_fmap_inj_on Intelligence.globalId (intelligences db))).
      apply Hkeep. split.
      * rewrite updated_globalId. apply list_elem_of_fmap.
        exists h0. split; [|done].
        by apply terminalRecord_Return in Ht as (-> & _).
      * unfold may_act in *. by rewrite updated_securityKey.
    + exists h0, t1, t2. split; [|done]. by apply list_elem_of_fmap_2.
Qed.
End Archival.

Section RetryClaims.
Import IntelligenceAndHistoryCtrl RetryEngine.

(** C1.  With a positive maximum, global ids that identify the active
    records and reports that name their producer, [updateIntelligences]
    returns, and for every intelligence it fetched: a report whose state is
    not FINISHED raises [failuresNumber] by exactly 1 (an absent number counts
    as 0), a report FINISHED leaves it as it is; the record is moved to the
    history (and is gone from the active collection) exactly when the report
    is FINISHED or the raised [failuresNumber] exceeds the maximum, and is
    otherwise updated in place and not archived.  Three reports FAILED with
    maximum 2 on a fresh intelligence: 1 and 2 in place, then, at the third,
    the record is archived with [failuresNumber] 3. *)
Theorem updateIntelligences_retry_bound :
  (∀ MAX clock content sk db item,
     0 < MAX →
     NoDup (Intelligence.globalId <$> intelligences db) →
     (∀ r, r ∈ content → carries_producer (Some r) = true) →
     item ∈ getIntelligencesDB (Report.globalId <$> content) sk db →
     let g := Intelligence.globalId item in
     let n := Intelligence.failuresNumber (Intelligence.system item) in
     let reported := get_state (mkContentMap content !! g) in
     let n' := if bool_decide (reported = Some INTELLIGENCE_STATE.finished)
               then n else Some (Num (or_zero n + 1)) in
     ∃ db' hs,
       updateIntelligences MAX clock content sk db = (Return (), db')
       ∧ intelligences_history db' = intelligences_history db ++ hs
       ∧ if bool_decide (reported = Some INTELLIGENCE_STATE.finished
                         ∨ MAX < or_zero n')
         then
           ((g ∉ (Intelligence.globalId <$> intelligences db'))
            ∧ ∃ h, h ∈ hs ∧ Intelligence.globalId h = g
                   ∧ Intelligence.failuresNumber (Intelligence.system h) = n')
         else
           (g ∉ (Intelligence.globalId <$> hs))
           ∧ ∃ i, i ∈ intelligences db' ∧ Intelligence.globalId i = g
                  ∧ Intelligence.failuresNumber (Intelligence.system i) = n')
  ∧ (let db1 := Scenario.reportFailed (mkDB [Scenario.created] []) in
     let db2 := Scenario.reportFailed db1 in
     let db3 := Scenario.reportFailed db2 in
     let view (i : Intelligence.t) :=
       (Intelligence.globalId i, Intelligence.state (Intelligence.system i),
        Intelligence.failuresNumber (Intelligence.system i)) in
     (view <$> intelligences db1 = [("intel-1", Some "FAILED", Some (Num 1))]
      ∧ intelligences_history db1 = [])
     ∧ (view <$> intelligences db2 = [("intel-1", Some "FAILED", Some (Num 2))]
        ∧ intelligences_history db2 = [])
     ∧ (intelligences db3 = []
        ∧ view <$> intelligences_history db3
          = [("intel-1", Some "FAILED", Some (Num 3))])).
Proof.
  split; [|by vm_compute].
  intros MAX clock content sk db item HMAX Hnd Hwf Hitem g n reported n'.
  destruct (updateIntelligences_returns MAX clock content sk db Hwf) as [db' Hrun].
  destruct (updateIntelligences_item MAX clock content sk db db' item Hnd Hrun Hitem)
    as (hs & Hhist & Hcase).
  exists db', hs. split; [done|]. split; [done|].
  fold g in Hcase. unfold retries in Hcase. fold n reported in Hcase.
  assert (Harchived : ∀ h0 t1 t2,
            clearReason h0 ∈ hs →
            terminalRecord t1 t2 item (mkContentMap content !! g) = Return h0 →
            ∃ h, h ∈ hs ∧ Intelligence.globalId h = g
                 ∧ Intelligence.failuresNumber (Intelligence.system h)
                   = (if bool_decide (reported ≠ Some INTELLIGENCE_STATE.finished)
                      then plus_one n else n)).
  { intros h0 t1 t2 Hin Ht. exists (clearReason h0). split; [done|].
    destruct (clearReason_fields h0) as (-> & _ & -> & _).
    by apply terminalRecord_Return in Ht as (-> & _ & -> & _). }
  destruct (decide (reported = Some INTELLIGENCE_STATE.finished)) as [Hfin|Hfin].
  - rewrite (bool_decide_eq_false_2 (reported ≠ _)) in Hcase by (intros Hn; by apply Hn).
    rewrite andb_false_r in Hcase.
    rewrite bool_decide_eq_true_2 by (by left).
    destruct Hcase as (Hgone & h0 & t1 & t2 & Hin & Ht). split; [done|].
    destruct (Harchived h0 t1 t2 Hin Ht) as (h & ? & ? & Hn).
    exists h. repeat split; auto. rewrite Hn. unfold n'.
    rewrite bool_decide_eq_false_2 by (intros Hx; by apply Hx).
    by rewrite bool_decide_eq_true_2.
  - rewrite (bool_decide_eq_true_2 (reported ≠ _)) in Hcase by done.
    rewrite andb_true_r in Hcase.
    assert (Hn' : n' = Some (Num (or_zero n + 1)))
      by (unfold n'; by rewrite bool_decide_eq_false_2).
    rewrite Hn'. simpl.
    destruct (decide (or_zero n < MAX)) as [Hlt|Hlt].
    + rewrite (bool_decide_eq_true_2 _ Hlt) in Hcase.
      rewrite bool_decide_eq_false_2 by (intros [?|?]; [done|lia]). done.
    + rewrite (bool_decide_eq_false_2 _ Hlt) in Hcase.
      rewrite bool_decide_eq_true_2 by (right; lia).
      destruct Hcase as (Hgone & h0 & t1 & t2 & Hin & Ht). split; [done|].
      destruct (Harchived h0 t1 t2 Hin Ht) as (h & ? & ? & Hn).
      exists h. repeat split; auto. rewrite Hn.
      rewrite bool_decide_eq_true_2 by done.
      destruct n as [[|m]|]; simpl in *; try done; lia.
Qed.

Lemma updateIntelligences_retry_bound_witness :
  ∃ db', updateIntelligences 2 Scenario.clock
           [Scenario.report1 "FAILED" (Some "timeout")] None
           (mkDB [Scenario.created] []) = (Return (), db').
Proof.
  destruct (proj1 updateIntelligences_retry_bound 2 Scenario.clock
              [Scenario.report1 "FAILED" (Some "timeout")] None
              (mkDB [Scenario.created] []) Scenario.created)
    as (db' & hs & Hrun & _).
  - lia.
  - compute_done.
  - intros r Hr. apply list_elem_of_singleton in Hr as ->. reflexivity.
  - compute_done.
  - by exists db'.
Defined.

(** C3.  Under the same conditions on the store and on the reports, once
    [updateIntelligences] has returned, the global id of every fetched
    intelligence that took the terminal branch is in the history collection
    and not in the active collection. *)
Theorem updateIntelligences_archival_exclusive MAX clock content sk db item :
  NoDup (Intelligence.globalId <$> intelligences db) →
  (∀ r, r ∈ content → carries_producer (Some r) = true) →
  item ∈ getIntelligencesDB (Report.globalId <$> content) sk db →
  retries MAX item (mkContentMap content !! Intelligence.globalId item) = false →
  ∃ db',
    updateIntelligences MAX clock content sk db = (Return (), db')
    ∧ Intelligence.globalId item ∈ (Intelligence.globalId <$> intelligences_history db')
    ∧ Intelligence.globalId item ∉ (Intelligence.globalId <$> intelligences db').
Proof.
  intros Hnd Hwf Hitem Hterm.
  destruct (updateIntelligences_returns MAX clock content sk db Hwf) as [db' Hrun].
  destruct (updateIntelligences_item MAX clock content sk db db' item Hnd Hrun Hitem)
    as (hs & Hhist & Hcase).
  rewrite Hterm in Hcase. destruct Hcase as (Hgone & h0 & t1 & t2 & Hin & Ht).
  exists db'. repeat split; auto.
  rewrite Hhist, fmap_app. apply elem_of_app. right.
  apply list_elem_of_fmap. exists (clearReason h0). split; [|done].
  destruct (clearReason_fields h0) as (-> & _).
  by apply terminalRecord_Return in Ht as (-> & _).
Qed.

Lemma updateIntelligences_archival_exclusive_witness :
  ∃ db', updateIntelligences 2 Scenario.clock
           [Scenario.report1 "FAILED" (Some "timeout")] None
           (mkDB [Scenario.exhausted] []) = (Return (), db')
         ∧ "intel-1" ∈ (Intelligence.globalId <$> intelligences_history db')
         ∧ "intel-1" ∉ (Intelligence.globalId <$> intelligences db').
Proof.
  apply (updateIntelligences_archival_exclusive 2 Scenario.clock
           [Scenario.report1 "FAILED" (Some "timeout")] None
           (mkDB [Scenario.exhausted] []) Scenario.exhausted).
  - compute_done.
  - intros r Hr. apply list_elem_of_singleton in Hr as ->. reflexivity.
  - compute_done.
  - by vm_compute.
Defined.
End RetryClaims.

Section ReportClaims.
Import IntelligenceAndHistoryCtrl RetryEngine.

(** C4, as amended.  On the retry path (reported state not FINISHED,
    [failuresNumber] below the maximum) the document written back sets the
    state to the reported state, or to FAILED when the report has none (it
    does not keep CONFIGURED), raises [failuresNumber] by 1, stamps
    [modified] and [endedAt] with the two clock readings, records the
    attempt metadata of the reporting producer and takes [failuresReason]
    from the report. *)
Theorem retryUpdate_fields MAX t1 t2 item intelligence :
  get_state intelligence ≠ Some INTELLIGENCE_STATE.finished →
  or_zero (Intelligence.failuresNumber (Intelligence.system item)) < MAX →
  retries MAX item intelligence = true
  ∧ Update.globalId (retryUpdate t1 t2 item intelligence)
    = Intelligence.globalId item
  ∧ Update.state (retryUpdate t1 t2 item intelligence)
    = match get_state intelligence with
      | Some v => if bool_decide (v = "") then INTELLIGENCE_STATE.failed else v
      | None => INTELLIGENCE_STATE.failed
      end
  ∧ Update.failuresNumber (retryUpdate t1 t2 item intelligence)
    = Some (Num (or_zero (Intelligence.failuresNumber (Intelligence.system item)) + 1))
  ∧ Update.modified (retryUpdate t1 t2 item intelligence) = t1
  ∧ Update.endedAt (retryUpdate t1 t2 item intelligence) = t2
  ∧ Update.producer (retryUpdate t1 t2 item intelligence)
    = Attempt.mk (get_producer Attempt.globalId intelligence)
        (get_producer Attempt.type intelligence)
        (get_producer Attempt.startedAt intelligence)
        (get_producer Attempt.endedAt intelligence)
  ∧ Update.failuresReason (retryUpdate t1 t2 item intelligence)
    = get_failuresReason intelligence.
Proof.
  intros Hstate Hfew. split.
  - unfold retries. by rewrite !bool_decide_eq_true_2.
  - repeat split; [|apply retryUpdate_failuresNumber].
    unfold retryUpdate; simpl.
    destruct (get_state intelligence) as [v|]; [|done].
    simpl. by repeat case_bool_decide.
Qed.

Lemma retryUpdate_fields_witness :
  Update.state (retryUpdate 1000 1001 Scenario.created
                  (Some (Scenario.report1 "FAILED" (Some "timeout"))))
  = "FAILED"
  ∧ Update.failuresNumber (retryUpdate 1000 1001 Scenario.created
                             (Some (Scenario.report1 "FAILED" (Some "timeout"))))
    = Some (Num 1).
Proof.
  destruct (retryUpdate_fields 2 1000 1001 Scenario.created
              (Some (Scenario.report1 "FAILED" (Some "timeout"))))
    as (_ & _ & Hs & Hn & _).
  - discriminate.
  - simpl. lia.
  - split; [exact Hs|exact Hn].
Defined.

(** C4 as the design document words it does not hold: the state written back
    on the retry path is the reported one, here FAILED, and the stored record
    that was CONFIGURED is FAILED afterwards. *)
Lemma retryUpdate_does_not_keep_configured :
  ¬ (∀ MAX t1 t2 item intelligence,
       get_state intelligence ≠ Some INTELLIGENCE_STATE.finished →
       or_zero (Intelligence.failuresNumber (Intelligence.system item)) < MAX →
       Update.state (retryUpdate t1 t2 item intelligence)
       = INTELLIGENCE_STATE.configured)
  ∧ (Intelligence.state (Intelligence.system Scenario.created) = Some "CONFIGURED"
     ∧ (λ i, Intelligence.state (Intelligence.system i))
         <$> intelligences (Scenario.reportFailed (mkDB [Scenario.created] []))
       = [Some "FAILED"]).
Proof.
  split; [|by vm_compute].
  intros H.
  specialize (H 2 1000 1001 Scenario.created
                (Some (Scenario.report1 "FAILED" (Some "timeout")))).
  assert (Hs : Update.state (retryUpdate 1000 1001 Scenario.created
                 (Some (Scenario.report1 "FAILED" (Some "timeout"))))
               = INTELLIGENCE_STATE.configured).
  { apply H; [discriminate|simpl; lia]. }
  vm_compute in Hs. discriminate.
Qed.

(** C5, as amended.  Of every record [updateIntelligences] appends to the
    history: when its state is FINISHED its [failuresReason] is empty
    (absent or the empty string); when its state is not FINISHED, its state
    and its [failuresReason] are those of the report that ended it, the
    reason being kept as reported, empty if the report had none. *)
Theorem archived_failuresReason MAX clock content sk db db' :
  updateIntelligences MAX clock content sk db = (Return (), db') →
  ∃ hs,
    intelligences_history db' = intelligences_history db ++ hs
    ∧ ∀ h, h ∈ hs →
        (Intelligence.state (Intelligence.system h) = Some INTELLIGENCE_STATE.finished →
         truthy (Intelligence.failuresReason (Intelligence.system h)) = false)
        ∧ (Intelligence.state (Intelligence.system h) ≠ Some INTELLIGENCE_STATE.finished →
           Intelligence.state (Intelligence.system h)
           = get_state (mkContentMap content !! Intelligence.globalId h)
           ∧ Intelligence.failuresReason (Intelligence.system h)
             = get_failuresReason (mkContentMap content !! Intelligence.globalId h)).
Proof.
  intros Hrun.
  apply updateIntelligences_Return in Hrun as (us & hs & (_ & Hh & _) & _ & Hhist).
  exists (clearReason <$> hs). split; [done|].
  intros h Hin. apply list_elem_of_fmap in Hin as (h0 & -> & Hin).
  destruct (Hh h0 Hin) as (item & t1 & t2 & _ & _ & Ht).
  apply terminalRecord_Return in Ht as (Hg & _ & _ & Hst & Hre).
  destruct (clearReason_fields h0) as (Hcg & Hcs & _ & Hclear & Hkeep).
  rewrite Hcg, Hcs, Hg. split.
  - apply Hclear.
  - intros Hnf. rewrite (Hkeep Hnf), Hre.
    rewrite Hst in Hnf |- *.
    destruct (get_state (mkContentMap content !! Intelligence.globalId item))
      as [v|]; simpl in *; [|done].
    by rewrite bool_decide_eq_true_2.
Qed.

Lemma archived_failuresReason_witness :
  ∃ hs,
    intelligences_history (Scenario.reportFailed (mkDB [Scenario.exhausted] []))
    = [] ++ hs
    ∧ (λ h, Intelligence.failuresReason (Intelligence.system h)) <$> hs
      = [Some "timeout"].
Proof.
  destruct (archived_failuresReason 2 Scenario.clock
              [Scenario.report1 "FAILED" (Some "timeout")] None
              (mkDB [Scenario.exhausted] [])
              (Scenario.reportFailed (mkDB [Scenario.exhausted] [])))
    as (hs & Hhist & _).
  - by vm_compute.
  - exists hs. split; [exact Hhist|].
    vm_compute in Hhist. by subst hs.
Defined.

(** C5 as the design document words it does not hold: an intelligence whose
    retries are exhausted by a report FAILED that gives no reason is archived
    as FAILED with an empty [failuresReason]; an empty reason is therefore
    not the mark of the records that are FINISHED. *)
Lemma archived_failuresReason_empty_without_finished :
  ¬ (∀ MAX clock content sk db db' h,
       updateIntelligences MAX clock content sk db = (Return (), db') →
       intelligences_history db = [] →
       h ∈ intelligences_history db' →
       (truthy (Intelligence.failuresReason (Intelligence.system h)) = false
        ↔ Intelligence.state (Intelligence.system h)
          = Some INTELLIGENCE_STATE.finished)).
Proof.
  intros H.
  pose (db' := (updateIntelligences 2 Scenario.clock
                  [Scenario.report1 "FAILED" None] None
                  (mkDB [Scenario.exhausted] [])).2).
  assert (Hh : ∃ h, intelligences_history db' = [h]
                    ∧ Intelligence.failuresReason (Intelligence.system h) = None
                    ∧ Intelligence.state (Intelligence.system h) = Some "FAILED").
  { vm_compute. eauto. }
  destruct Hh as (h & Hhist & Hre & Hst).
  specialize (H 2 Scenario.clock [Scenario.report1 "FAILED" None] None
                (mkDB [Scenario.exhausted] []) db' h).
  destruct H as [Hempty _].
  - by vm_compute.
  - done.
  - rewrite Hhist. left.
  - rewrite Hre in Hempty. specialize (Hempty eq_refl).
    rewrite Hst in Hempty. discriminate.
Qed.
End ReportClaims.

Section RequestWorkExamples.
Import TasksJobQueue Dispatch.

(** The three ways out of [getIntelligences], among the collaborators of
    [Scenario]: the caller is alone in the queue and is served; the producer
    is unknown; the caller stays behind the ticket of another producer until
    the timeout.  None leaves its ticket behind. *)
Example requestWork_served :
  Scenario.requestWork Scenario.quiet 1 "producer-1" (Some "null") []
  = Some (Return [], ([], ())).
Proof. by vm_compute. Qed.

Example requestWork_unknown_producer :
  Scenario.requestWork Scenario.quiet 1 "producer-2" None []
  = Some (Throw (HTTPError 404 "00144040001" [Some "producer-2"]), ([], ())).
Proof. by vm_compute. Qed.

Example requestWork_timeout :
  Scenario.requestWork Scenario.quiet 11 "producer-1" None [Scenario.stale]
  = Some (Throw (Thrown false), ([Scenario.stale], ())).
Proof. by vm_compute. Qed.

(** A call that stays behind the ticket of another producer: it ends at the
    eleventh firing, and its ticket is gone. *)
Lemma getIntelligences_releases_its_ticket_witness :
  ∃ res st',
    Scenario.requestWork Scenario.quiet 11 "producer-1" None [Scenario.stale]
    = Some (res, ([Scenario.stale], st')).
Proof.
  destruct (getIntelligences_releases_its_ticket
              Scenario.directory Scenario.ping Scenario.idle Scenario.numbered
              Scenario.keep Scenario.same Scenario.same "engine-ui" "ACTIVE" 1000
              Scenario.quiet "producer-1" None [Scenario.stale] ())
    as (Hends & Hended & _).
  destruct Hends as (res & q' & st' & Hrun).
  - lia.
  - intros i. reflexivity.
  - intros i. simpl. lia.
  - exists res, st'.
    destruct (Hended _ res q' st' Hrun (or_introl eq_refl)) as [_ Hback].
    assert (Hq : q' = [Scenario.stale]).
    { apply Hback; [|reflexivity].
      intros j Hj. apply list_elem_of_singleton in Hj as ->. discriminate. }
    subst q'. exact Hrun.
Defined.

(** C7 as the design document words it does not hold: when the storage does
    not execute the delete of the [catch] block, the call ends with the error
    of that delete and its ticket stays in the table.  Here the producer is
    unknown, the table was empty before the call and holds one ticket
    after it. *)
Lemma getIntelligences_failed_cleanup_keeps_ticket :
  ¬ (∀ E fuel gid sk q res q' st',
       Scenario.requestWork E fuel gid sk q = Some (res, (q', st')) →
       (∀ j, j ∈ q' → global_id j ≠ Scenario.numbered "taskjob"))
  ∧ Scenario.requestWork Scenario.stuck 1 "producer-2" None []
    = Some (Throw (HTTPError 500 "00005000001"
                     [Some "TasksJobQueue.ctrl->removeTaskJob"]),
            ([mk 10 "taskjob::1" "producer-2" 0], ())).
Proof.
  split; [|by vm_compute].
  intros H.
  apply (H Scenario.stuck 1%nat "producer-2" None []
           (Throw (HTTPError 500 "00005000001"
                     [Some "TasksJobQueue.ctrl->removeTaskJob"]))
           [mk 10 "taskjob::1" "producer-2" 0] ()
           ltac:(by vm_compute)
           (mk 10 "taskjob::1" "producer-2" 0) ltac:(left)).
  reflexivity.
Qed.
End RequestWorkExamples.

(** * Further properties *)

(** ** The ticket table: how insertion, release and sweep compose *)

Section TicketTableComposition.
Import TasksJobQueue TasksJobQueueCtrl.

Lemma NoDup_fmap_filter {A B} (f : A → B) (P : A → Prop)
    `{∀ x, Decision (P x)} (l : list A) :
  NoDup (f <$> l) → NoDup (f <$> filter P l).
Proof.
  induction l as [|a l IH]; simpl; intros Hnd; [done|].
  apply NoDup_cons in Hnd as [Hna Hnd].
  rewrite filter_cons. destruct (decide (P a)); simpl; [|auto].
  apply NoDup_cons. split; [|auto].
  intros Hin. apply Hna.
  apply list_elem_of_fmap in Hin as (x & -> & Hx).
  apply list_elem_of_filter in Hx as [_ Hx]. by apply list_elem_of_fmap_2.
Qed.

(** Deleting rows does not change which of the remaining rows is the head. *)
Lemma getTopTaskJob_filter (P : t → Prop) `{∀ x, Decision (P x)} q h :
  NoDup (id <$> q) →
  getTopTaskJob true q = Return (Some h) → P h →
  getTopTaskJob true (filter P q) = Return (Some h).
Proof.
  intros Hnd Htop HP.
  destruct (getTopTaskJob_unique q h Hnd Htop) as (Hin & Hle & _).
  apply getTopTaskJob_least.
  - by apply NoDup_fmap_filter.
  - by apply list_elem_of_filter.
  - intros t' Ht'. apply list_elem_of_filter in Ht' as [_ Ht']. auto.
Qed.

(** X1.  First in, first out.  A ticket inserted into an empty table is the
    head; a ticket inserted into a table all of whose tickets come before it
    (earlier stamp, or same stamp and smaller key) leaves the head as it was. *)
Theorem addATaskJob_does_not_overtake row_id now g a q :
  NoDup (id <$> q) →
  row_id ∉ (id <$> q) →
  (∀ j, j ∈ q → job_le j (mk row_id g a now)) →
  getTopTaskJob true (addATaskJob true row_id now g a q).2
  = match q with
    | [] => Return (Some (mk row_id g a now))
    | _ => getTopTaskJob true q
    end.
Proof.
  intros Hnd Hfresh Hbefore. simpl.
  destruct (decide (q = [])) as [->|Hne]; [reflexivity|].
  transitivity (getTopTaskJob true q); [|by destruct q].
  destruct (getOne_orderBy_nonempty q Hne) as [h Hh].
  assert (Htop : getTopTaskJob true q = Return (Some h))
    by (unfold getTopTaskJob; by rewrite Hh).
  rewrite Htop.
  destruct (getTopTaskJob_unique q h Hnd Htop) as (Hin & Hle & _).
  apply getTopTaskJob_least.
  - rewrite fmap_app. apply NoDup_app. split; [done|]. split.
    + intros x Hx Hx'. apply list_elem_of_singleton in Hx'. simpl in Hx'.
      by subst.
    + apply NoDup_singleton.
  - apply elem_of_app. by left.
  - intros t' Ht'. apply elem_of_app in Ht' as [Ht'|Ht']; [auto|].
    apply list_elem_of_singleton in Ht' as ->. auto.
Qed.

Lemma addATaskJob_does_not_overtake_witness :
  getTopTaskJob true
    (addATaskJob true 2 7 "taskjob-b" "producer-2"
       [mk 1 "taskjob-a" "producer-1" 7]).2
  = getTopTaskJob true [mk 1 "taskjob-a" "producer-1" 7].
Proof.
  apply (addATaskJob_does_not_overtake 2 7 "taskjob-b" "producer-2"
           [mk 1 "taskjob-a" "producer-1" 7]).
  - compute_done.
  - compute_done.
  - intros j Hj. apply list_elem_of_singleton in Hj as ->.
    unfold job_le; simpl. lia.
Defined.

(** X2.  A release or a sweep leaves the head in place when the head is not
    among the removed tickets: which ticket is the head depends on the
    remaining tickets only. *)
Theorem deletions_keep_the_surviving_head q h g now TIMEOUT :
  NoDup (id <$> q) →
  getTopTaskJob true q = Return (Some h) →
  (global_id h ≠ g →
   getTopTaskJob true (removeTaskJob true g q).2 = Return (Some h))
  ∧ (h ∈ removeTimeoutJob true now TIMEOUT q →
     getTopTaskJob true (removeTimeoutJob true now TIMEOUT q) = Return (Some h)).
Proof.
  intros Hnd Htop. split.
  - intros Hg. simpl. by apply getTopTaskJob_filter.
  - unfold removeTimeoutJob.
    destruct (JSDate.toISOString (now - TIMEOUT)) as [bound|]; [|done].
    intros Hkept. apply list_elem_of_filter in Hkept as [Hkept _].
    by apply getTopTaskJob_filter.
Qed.

Lemma deletions_keep_the_surviving_head_witness :
  getTopTaskJob true
    (removeTaskJob true "taskjob-b"
       [mk 2 "taskjob-b" "producer-2" 86400007;
        mk 1 "taskjob-a" "producer-1" 86400007]).2
  = Return (Some (mk 1 "taskjob-a" "producer-1" 86400007))
  ∧ getTopTaskJob true
      (removeTimeoutJob true 86400100 86400000
         [mk 2 "taskjob-b" "producer-2" 86400007;
          mk 1 "taskjob-a" "producer-1" 86400007])
    = Return (Some (mk 1 "taskjob-a" "producer-1" 86400007)).
Proof.
  destruct (deletions_keep_the_surviving_head
              [mk 2 "taskjob-b" "producer-2" 86400007;
               mk 1 "taskjob-a" "producer-1" 86400007]
              (mk 1 "taskjob-a" "producer-1" 86400007) "taskjob-b"
              86400100 86400000) as [Hrelease Hsweep].
  - compute_done.
  - by vm_compute.
  - split.
    + apply Hrelease. discriminate.
    + apply Hsweep. vm_compute. right; left.
Defined.

(** X3.  Releases and sweeps can be applied in any order: two releases
    commute, and a release commutes with a sweep. *)
Theorem deletions_commute g1 g2 now TIMEOUT q :
  (removeTaskJob true g1 (removeTaskJob true g2 q).2).2
  = (removeTaskJob true g2 (removeTaskJob true g1 q).2).2
  ∧ (removeTaskJob true g1 (removeTimeoutJob true now TIMEOUT q)).2
    = removeTimeoutJob true now TIMEOUT (removeTaskJob true g1 q).2.
Proof.
  unfold removeTaskJob, removeTimeoutJob; simpl. split.
  - rewrite !list_filter_filter. apply list_filter_iff; intros j; tauto.
  - destruct (JSDate.toISOString (now - TIMEOUT)) as [bound|]; [|done].
    rewrite !list_filter_filter. apply list_filter_iff; intros j; tauto.
Qed.
End TicketTableComposition.

(** ** Waiting: what an outcome tells *)

Section WaitingOutcomes.
Import TasksJobQueue TasksJobQueueCtrl Dispatch.

Lemma firings_Some T E g fuel k0 q s q' k :
  firings T E g fuel k0 q = Some (s, q', k) →
  ∃ n, k = (k0 + n)%nat ∧ (n < fuel)%nat ∧ q' = seen E (S n) k0 q
       ∧ firings T E g n k0 q = None
       ∧ firing T (Date_now E 0) g (find_up E k) (Date_now E k) q' = Some s.
Proof.
  revert k0 q. induction fuel as [|fuel IH]; intros k0 q H; [done|].
  simpl in H.
  destruct (firing T (Date_now E 0) g (find_up E k0) (Date_now E k0) (others E k0 q))
    as [s0|] eqn:Hf.
  - simplify_eq. exists 0%nat. rewrite Nat.add_0_r. repeat split; [lia|done].
  - apply IH in H as (n & -> & Hn & -> & Hnone & Hs).
    exists (S n). repeat split; [lia|lia| |done].
    simpl. by rewrite Hf.
Qed.

(** X5.  What the outcome of a wait tells.  The wait resolves (with [true])
    only at a firing whose query was answered and found a ticket carrying the
    caller's identifier that no ticket of the table precedes; it rejects
    (with [false]) only at a firing whose query was answered and found the
    table empty, or a head without identifier, or more than the timeout
    elapsed.  In either case no earlier firing had settled it. *)
Theorem waitUntilTopTask_outcome_sound T E fuel g q s q' k :
  waitUntilTopTask T E fuel g q = Some (s, q', k) →
  (1 ≤ k ≤ fuel)%nat
  ∧ q' = seen E k 1 q
  ∧ find_up E k = true
  ∧ waitUntilTopTask T E (k - 1) g q = None
  ∧ match s with
    | Resolve v =>
      v = true ∧ g ≠ ""
      ∧ ∃ job, job ∈ q' ∧ global_id job = g ∧ ∀ j, j ∈ q' → job_le job j
    | Reject v =>
      v = false
      ∧ (q' = []
         ∨ (∃ job, getOne (orderBy q') = Some job ∧ global_id job = "")
         ∨ Date_now E k - Date_now E 0 > T)
    end.
Proof.
  unfold waitUntilTopTask. intros H.
  apply firings_Some in H as (n & -> & Hn & -> & Hnone & Hs).
  change (1 + n)%nat with (S n) in *.
  replace (S n - 1)%nat with n by lia.
  split; [lia|]. split; [done|].
  destruct (find_up E (S n)) eqn:Hup; [|done].
  split; [done|]. split; [done|].
  rewrite firing_answered in Hs.
  destruct (getOne (orderBy (seen E (S n) 1 q))) as [job|] eqn:Hhead.
  - apply getOne_orderBy_least in Hhead as Hleast. destruct Hleast as [Hin Hle].
    repeat case_bool_decide; simplify_eq.
    + split; [done|]. right. left. by exists job.
    + split; [done|]. split; [done|]. eauto.
    + split; [done|]. by right; right.
  - simplify_eq. split; [done|]. left.
    destruct (decide (seen E (S n) 1 q = [])) as [|Hne]; [done|].
    apply getOne_orderBy_nonempty in Hne. rewrite Hhead in Hne. by destruct Hne.
Qed.

Lemma waitUntilTopTask_outcome_sound_witness :
  (1 ≤ 11 ≤ 11)%nat
  ∧ [Scenario.stale] = seen Scenario.quiet 11 1 [Scenario.stale]
  ∧ find_up Scenario.quiet 11 = true.
Proof.
  destruct (waitUntilTopTask_outcome_sound 1000 Scenario.quiet 11 "taskjob-mine"
              [Scenario.stale] (Reject false) [Scenario.stale] 11)
    as (Hk & Hq & Hup & _).
  - by vm_compute.
  - exact (conj Hk (conj Hq Hup)).
Defined.

(** X6.  The head is admitted whatever the clock says: at a firing whose
    query is answered and finds the caller's ticket at the head, the wait
    resolves, even when more than the timeout has elapsed. *)
Theorem waitUntilTopTask_head_is_admitted_even_late T E g q n job :
  waitUntilTopTask T E n g q = None →
  find_up E (S n) = true →
  getOne (orderBy (seen E (S n) 1 q)) = Some job →
  global_id job = g → g ≠ "" →
  waitUntilTopTask T E (n + 1) g q
  = Some (Resolve true, seen E (S n) 1 q, S n).
Proof.
  intros Hnone Hup Hhead Hg Hne.
  rewrite waitUntilTopTask_next by done.
  rewrite Hup, firing_answered, Hhead.
  rewrite bool_decide_eq_false_2 by congruence.
  by rewrite bool_decide_eq_true_2.
Qed.

Lemma waitUntilTopTask_head_is_admitted_even_late_witness :
  waitUntilTopTask 0 Scenario.quiet (0 + 1) "taskjob-other" [Scenario.stale]
  = Some (Resolve true, [Scenario.stale], 1%nat).
Proof.
  apply (waitUntilTopTask_head_is_admitted_even_late 0 Scenario.quiet
           "taskjob-other" [Scenario.stale] 0 Scenario.stale);
    by vm_compute.
Defined.

(** X7.  A firing whose query fails decides nothing: as long as the ticket
    table answers no query the wait stays open, be the caller at the head or
    the timeout long elapsed, and the first answered firing decides as if
    the failed ones had not been. *)
Theorem waitUntilTopTask_failed_polls_are_skipped T E g q n :
  (∀ k, (1 ≤ k ≤ n)%nat → find_up E k = false) →
  waitUntilTopTask T E n g q = None
  ∧ waitUntilTopTask T E (n + 1) g q
    = match firing T (Date_now E 0) g (find_up E (S n)) (Date_now E (S n))
              (seen E (S n) 1 q) with
      | Some s => Some (s, seen E (S n) 1 q, S n)
      | None => None
      end.
Proof.
  intros Hdown.
  assert (Hnone : waitUntilTopTask T E n g q = None).
  { unfold waitUntilTopTask.
    assert (Hgen : ∀ m k0 q0, (∀ k, (k0 ≤ k < k0 + m)%nat → find_up E k = false) →
              firings T E g m k0 q0 = None).
    { induction m as [|m IH]; intros k0 q0 Hk; [done|].
      simpl. rewrite (Hk k0) by lia. simpl.
      apply IH. intros k Hk'. apply Hk. lia. }
    apply Hgen. intros k Hk. apply Hdown. lia. }
  split; [done|]. by apply waitUntilTopTask_next.
Qed.

Lemma waitUntilTopTask_failed_polls_are_skipped_witness :
  waitUntilTopTask 1000 Scenario.outage 20 "taskjob-mine" [] = None.
Proof.
  apply (waitUntilTopTask_failed_polls_are_skipped 1000 Scenario.outage
           "taskjob-mine" [] 20).
  intros k _. reflexivity.
Defined.
End WaitingOutcomes.

(** ** Requesting work: who is served *)

Section WhoIsServed.
Import TasksJobQueue TasksJobQueueCtrl Dispatch.
Context {Store : Type}.
Variable getProducerByGlobalIdDB :
  string → option string → Store → outcome (option Producer.t).
Variable updateProducerDB :
  string → option string → ProducerUpdate.t → Store → outcome unit * Store.
Variable getIntelligencesForProducerDB :
  Producer.t → option string → Store → outcome (list Intelligence.t) * Store.
Variable generateGlobalId : string → string.
Variable omit : Producer.t → list string → list string → Producer.t.
Variable toUpper trim : string → string.
Variable REQUESTED_WITH_ENGINE_UI PRODUCER_STATE_active : string.
Variable TASK_JOB_TIMEOUT : Z.

Let getProducer' :=
  getProducer getProducerByGlobalIdDB updateProducerDB toUpper
    REQUESTED_WITH_ENGINE_UI.
Let getIntelligences' :=
  getIntelligences getProducerByGlobalIdDB updateProducerDB
    getIntelligencesForProducerDB generateGlobalId omit toUpper trim
    REQUESTED_WITH_ENGINE_UI PRODUCER_STATE_active TASK_JOB_TIMEOUT.

Lemma waitUntilTopTask_Resolve_true T E fuel g q v q' k :
  waitUntilTopTask T E fuel g q = Some (Resolve v, q', k) → v = true.
Proof.
  unfold waitUntilTopTask. intros H.
  apply firings_Some in H as (n & _ & _ & _ & _ & Hs).
  unfold firing in Hs.
  destruct (getTopTaskJob _ _) as [[job|]|]; [|done|done].
  repeat case_bool_decide; by simplify_eq.
Qed.


(** X9.  Who is not served leaves no trace in the store.  A call that ends
    without having been admitted (the insertion failed, or the wait was
    rejected) ends with an exception and with the store exactly as it was:
    neither the directory nor the collection was read or written. *)
Theorem getIntelligences_store_untouched_unless_admitted
    E fuel gid sk q st res q' st' :
  getIntelligences' E fuel gid sk q st = Some (res, (q', st')) →
  (∃ q2 k,
     insert_up E = true
     ∧ waitUntilTopTask TASK_JOB_TIMEOUT E fuel (generateGlobalId "taskjob")
         (q ++ [mk (row_id E) (generateGlobalId "taskjob") gid (row_stamp E)])
       = Some (Resolve true, q2, k))
  ∨ (st' = st ∧ ∃ e, res = Throw e).
Proof.
  unfold getIntelligences', getIntelligences, getIntelligences_try, addATaskJob.
  destruct (insert_up E) eqn:Hins.
  2:{ destruct (removeTaskJob _ _ _) as [[[]|e] q4];
        intros [= <- <- <-]; right; eauto. }
  destruct (waitUntilTopTask _ _ _ _ _) as [[[[v|v] q2] k]|] eqn:Hw; [| |done].
  - apply waitUntilTopTask_Resolve_true in Hw as Hv. subst v.
    intros _. left. eauto.
  - destruct (removeTaskJob _ _ _) as [[[]|e] q4];
      intros [= <- <- <-]; right; eauto.
Qed.

(** X10.  One connection per producer.  Once a call of [getProducer] that
    presents a type and a serial id has stamped the serial id on a producer
    that had none, a call that presents another serial id is refused (403,
    or 400 when its type does not match) and leaves the directory as it is,
    until the stored serial id is cleared. *)
Theorem getProducer_serial_lock gid sk s1 ty jobId rw now st p st1 p1 :
  gid ≠ "" → s1 ≠ "" → ty ≠ "" →
  getProducerByGlobalIdDB gid sk st = Return (Some p) →
  is_truthy (Producer.serialId (Producer.system p)) = false →
  toUpper_ toUpper (Producer.type p) = toUpper ty →
  updateProducerDB gid sk
    (ProducerUpdate.mk
       (if bool_decide (rw ≠ Some REQUESTED_WITH_ENGINE_UI) then Some now else None)
       (Some s1)) st = (Return (), st1) →
  getProducerByGlobalIdDB gid sk st1 = Return (Some p1) →
  Producer.serialId (Producer.system p1) = Some s1 →
  getProducer' gid sk (Some s1) jobId rw (Some ty) now st = (Return p, st1)
  ∧ ∀ s2 jobId2 rw2 ty2 now2,
      s2 ≠ "" → s2 ≠ s1 →
      ∃ e, getProducer' gid sk (Some s2) jobId2 rw2 ty2 now2 st1 = (Throw e, st1)
           ∧ (e = HTTPError 403 "00144030001" [Some gid]
              ∨ e = HTTPError 400 "00144000004" [Some gid; ty2; Producer.type p1]).
Proof.
  intros Hgid Hs1 Hty Hget Hfree Htype Hupd Hget1 Hlock. split.
  - unfold getProducer', getProducer.
    rewrite bool_decide_eq_false_2 by done. rewrite Hget. simpl.
    rewrite (bool_decide_eq_true_2 (ty ≠ "")) by done. simpl.
    rewrite bool_decide_eq_false_2 by (intros Hn; by apply Hn).
    rewrite Hfree. simpl.
    rewrite (bool_decide_eq_true_2 (s1 ≠ "")) by done. simpl.
    by rewrite Hupd.
  - intros s2 jobId2 rw2 ty2 now2 Hs2 Hne.
    unfold getProducer', getProducer.
    rewrite bool_decide_eq_false_2 by done. rewrite Hget1.
    destruct (is_truthy ty2 && bool_decide _) eqn:Hmismatch; [eauto|].
    rewrite Hlock. simpl.
    rewrite (bool_decide_eq_true_2 (s1 ≠ "")) by done.
    rewrite (bool_decide_eq_true_2 (s2 ≠ "")) by done.
    rewrite bool_decide_eq_true_2 by congruence. simpl. eauto.
Qed.
End WhoIsServed.

Section WhoIsServedExamples.
Import TasksJobQueue TasksJobQueueCtrl Dispatch.


Lemma getIntelligences_store_untouched_unless_admitted_witness :
  (∃ q2 k,
     insert_up Scenario.quiet = true
     ∧ waitUntilTopTask 1000 Scenario.quiet 11 "taskjob::1"
         ([Scenario.stale] ++ [mk 10 "taskjob::1" "producer-1" 0])
       = Some (Resolve true, q2, k))
  ∨ (() = () ∧ ∃ e, Throw (A := list Intelligence.t) (Thrown false) = Throw e).
Proof.
  apply (getIntelligences_store_untouched_unless_admitted
           Scenario.directory Scenario.ping Scenario.idle Scenario.numbered
           Scenario.keep Scenario.same Scenario.same "engine-ui" "ACTIVE" 1000
           Scenario.quiet 11 "producer-1" None [Scenario.stale] ()
           (Throw (Thrown false)) [Scenario.stale] ()).
  by vm_compute.
Defined.

Lemma getProducer_serial_lock_witness :
  getProducer Scenario.roster Scenario.stamp Scenario.same "engine-ui"
    "producer-1" None (Some "serial-A") None None (Some "HEADLESSBROWSER") 50 None
  = (Return (Scenario.connected None), Some "serial-A")
  ∧ ∃ e, getProducer Scenario.roster Scenario.stamp Scenario.same "engine-ui"
           "producer-1" None (Some "serial-B") None None None 60 (Some "serial-A")
         = (Throw e, Some "serial-A").
Proof.
  destruct (getProducer_serial_lock Scenario.roster Scenario.stamp Scenario.same
              "engine-ui" "producer-1" None "serial-A" "HEADLESSBROWSER" None None
              50 None (Scenario.connected None) (Some "serial-A")
              (Scenario.connected (Some "serial-A")))
    as [Hfirst Hnext]; try done.
  split; [exact Hfirst|].
  destruct (Hnext "serial-B" None None None 60) as (e & He & _); try done.
  by exists e.
Defined.
End WhoIsServedExamples.

(** ** Reporting results: edge cases and invariants *)

Section ReportingInvariants.
Import IntelligenceAndHistoryCtrl RetryEngine.

Lemma filter_none {A} (P : A → Prop) `{∀ x, Decision (P x)} (l : list A) :
  (∀ x, x ∈ l → ¬ P x) → filter P l = [].
Proof.
  induction l as [|a l IH]; intros Hall; [done|].
  rewrite filter_cons, decide_False by (apply Hall; left).
  apply IH. intros x Hx. apply Hall. by right.
Qed.

Lemma updateIntelligences_nothing_fetched MAX clock content sk db :
  (∀ i, i ∈ intelligences db →
        Intelligence.globalId i ∈ (Report.globalId <$> content) → ¬ may_act sk i) →
  updateIntelligences MAX clock content sk db = (Return (), db).
Proof.
  intros Hnone. unfold updateIntelligences, getIntelligencesDB.
  rewrite filter_none; [done|]. intros i Hi [Hg Hm]. by apply (Hnone i).
Qed.

(** X11.  Reports that name no active intelligence the presented key may act
    on (an empty batch, unknown or already archived ids, ids of another
    owner) are acknowledged and change nothing. *)
Theorem updateIntelligences_ignores_foreign_reports MAX clock content sk db :
  (∀ i, i ∈ intelligences db →
        Intelligence.globalId i ∈ (Report.globalId <$> content) → ¬ may_act sk i) →
  updateIntelligences MAX clock content sk db = (Return (), db).
Proof. apply updateIntelligences_nothing_fetched. Qed.

Lemma updateIntelligences_ignores_foreign_reports_witness :
  updateIntelligences 2 Scenario.clock
    [Scenario.report1 "FAILED" (Some "timeout")] (Some "another-key")
    (mkDB [Scenario.created] [])
  = (Return (), mkDB [Scenario.created] []).
Proof.
  apply updateIntelligences_ignores_foreign_reports.
  intros i Hi _. apply list_elem_of_singleton in Hi as ->. discriminate.
Defined.

Lemma terminalRecord_Throw t1 t2 item intelligence :
  carries_producer intelligence = false →
  ∃ what, terminalRecord t1 t2 item intelligence = Throw (TypeError what).
Proof.
  unfold carries_producer, get_system, terminalRecord. intros H.
  destruct intelligence as [r|]; [|eauto].
  destruct (Report.system r) as [rs|]; [|eauto].
  destruct (Report.producer rs) as [p|]; [|eauto].
  apply bool_decide_eq_false in H. destruct H. eauto.
Qed.

Lemma terminalRecord_Throw_TypeError t1 t2 item intelligence e :
  terminalRecord t1 t2 item intelligence = Throw e → ∃ what, e = TypeError what.
Proof.
  unfold terminalRecord. intros H.
  repeat (case_match; simplify_eq/=); eauto.
Qed.

Lemma classifyAll_throws MAX clock cm k items acc item :
  item ∈ items →
  retries MAX item (cm !! Intelligence.globalId item) = false →
  carries_producer (cm !! Intelligence.globalId item) = false →
  ∃ what, classifyAll MAX clock cm k items acc = Throw (TypeError what).
Proof.
  revert k acc. induction items as [|i items IH]; intros k acc Hin Hr Hc.
  - by apply elem_of_nil in Hin.
  - simpl. destruct (retries MAX i _) eqn:Hri.
    + apply IH; [|done|done].
      apply elem_of_cons in Hin as [->|Hin]; [congruence|done].
    + destruct (terminalRecord _ _ i _) as [h|e] eqn:Ht.
      * apply IH; [|done|done].
        apply elem_of_cons in Hin as [->|Hin]; [|done].
        destruct (terminalRecord_Throw (clock k) (clock (S k)) i
                    (cm !! Intelligence.globalId i) Hc) as [what Hw].
        congruence.
      * apply terminalRecord_Throw_TypeError in Ht as [what ->]. eauto.
Qed.

(** X12.  One report without [system.producer] for an intelligence that is
    to be archived makes the whole call throw a [TypeError]; nothing of the
    batch is written, not even the updates of the intelligences that were to
    be retried. *)
Theorem updateIntelligences_malformed_report_aborts_batch
    MAX clock content sk db item :
  item ∈ getIntelligencesDB (Report.globalId <$> content) sk db →
  retries MAX item (mkContentMap content !! Intelligence.globalId item) = false →
  carries_producer (mkContentMap content !! Intelligence.globalId item) = false →
  ∃ what,
    updateIntelligences MAX clock content sk db = (Throw (TypeError what), db).
Proof.
  intros Hin Hr Hc. unfold updateIntelligences.
  destruct (getIntelligencesDB _ sk db) as [|i items] eqn:Hf.
  - by apply elem_of_nil in Hin.
  - destruct (classifyAll_throws MAX clock (mkContentMap content) 0 (i :: items)
                (mkAcc [] [] []) item Hin Hr Hc) as [what ->].
    eauto.
Qed.

Lemma updateIntelligences_malformed_report_aborts_batch_witness :
  ∃ what,
    updateIntelligences 2 Scenario.clock
      [Report.mk "intel-2" (Some (Report.mkSystem (Some "FAILED") None None));
       Report.mk "intel-1" (Some (Report.mkSystem (Some "FINISHED") None None))]
      None
      (mkDB [Scenario.created;
             Intelligence.mk (Some 8) None "intel-2"
               (Intelligence.system Scenario.created) []] [])
    = (Throw (TypeError what),
       mkDB [Scenario.created;
             Intelligence.mk (Some 8) None "intel-2"
               (Intelligence.system Scenario.created) []] []).
Proof.
  apply (updateIntelligences_malformed_report_aborts_batch 2 Scenario.clock _ None
           _ Scenario.created).
  - compute_done.
  - by vm_compute.
  - by vm_compute.
Defined.

Lemma updated_other us r :
  (∀ u, u ∈ us → Update.globalId u ≠ Intelligence.globalId r) →
  updated us r = r.
Proof.
  induction us as [|u us IH] using rev_ind; intros Hall; [done|].
  rewrite updated_snoc, IH.
  - unfold applyUpdate. rewrite decide_False; [done|].
    intros Heq. apply (Hall u); [|done]. apply elem_of_app. right. left.
  - intros u' Hu'. apply Hall. apply elem_of_app. by left.
Qed.

(** X13.  A call that returns touches only what was reported: the history
    it finds is a prefix of the history it leaves, and the active records
    whose global id is not in the batch are, after the call, exactly those
    that were there before, unchanged. *)
Theorem updateIntelligences_touches_only_reported MAX clock content sk db db' :
  updateIntelligences MAX clock content sk db = (Return (), db') →
  intelligences_history db `prefix_of` intelligences_history db'
  ∧ ∀ r, Intelligence.globalId r ∉ (Report.globalId <$> content) →
         (r ∈ intelligences db' ↔ r ∈ intelligences db).
Proof.
  intros Hrun.
  apply updateIntelligences_Return in Hrun as (us & hs & (Hu & Hh & _) & Hact & Hhist).
  split; [rewrite Hhist; by apply prefix_app_r|].
  intros r Hr.
  assert (Hfetched : ∀ item,
            item ∈ getIntelligencesDB (Report.globalId <$> content) sk db →
            Intelligence.globalId item ≠ Intelligence.globalId r).
  { intros item Hitem Heq. apply getIntelligencesDB_elem in Hitem as (_ & Hg & _).
    apply Hr. by rewrite <- Heq. }
  assert (Hsame : ∀ r0, Intelligence.globalId r0 = Intelligence.globalId r →
                        updated us r0 = r0).
  { intros r0 Hid. apply updated_other. intros u Hin Heq.
    destruct (Hu u Hin) as (item & t1 & t2 & Hitem & _ & ->). simpl in Heq.
    apply (Hfetched item Hitem). congruence. }
  assert (Hkept : ¬ (Intelligence.globalId r ∈ (Intelligence.globalId <$> hs)
                     ∧ may_act sk r)).
  { intros [Hin _]. apply list_elem_of_fmap in Hin as (h & Hid & Hin).
    destruct (Hh h Hin) as (item & t1 & t2 & Hitem & _ & Ht).
    apply terminalRecord_Return in Ht as (Hg & _).
    apply (Hfetched item Hitem). congruence. }
  rewrite Hact. split.
  - intros Hin. apply list_elem_of_filter in Hin as [_ Hin].
    apply list_elem_of_fmap in Hin as (r0 & Heq & Hr0).
    assert (Hid : Intelligence.globalId r0 = Intelligence.globalId r)
      by (by rewrite Heq, updated_globalId).
    rewrite (Hsame r0 Hid) in Heq. by subst.
  - intros Hin. apply list_elem_of_filter. split; [done|].
    apply list_elem_of_fmap. exists r. split; [|done].
    symmetry. by apply Hsame.
Qed.

Lemma updateIntelligences_touches_only_reported_witness :
  intelligences_history (mkDB [Scenario.exhausted] [])
    `prefix_of` intelligences_history
                  (Scenario.reportFailed (mkDB [Scenario.exhausted] [])).
Proof.
  apply (updateIntelligences_touches_only_reported 2 Scenario.clock
           [Scenario.report1 "FAILED" (Some "timeout")] None
           (mkDB [Scenario.exhausted] [])
           (Scenario.reportFailed (mkDB [Scenario.exhausted] []))).
  by vm_compute.
Defined.

(** X14.  Delivering a batch a second time archives nothing twice: when
    every intelligence a batch concerned took the terminal branch, the same
    batch presented again finds none of them and changes nothing. *)
Theorem updateIntelligences_redelivery_changes_nothing
    MAX clock clock' content sk db db' :
  updateIntelligences MAX clock content sk db = (Return (), db') →
  (∀ item, item ∈ getIntelligencesDB (Report.globalId <$> content) sk db →
     retries MAX item (mkContentMap content !! Intelligence.globalId item) = false) →
  updateIntelligences MAX clock' content sk db' = (Return (), db').
Proof.
  intros Hrun Hterm.
  apply updateIntelligences_Return in Hrun as (us & hs & (Hu & Hh & Hi) & Hact & Hhist).
  assert (Hus : us = []).
  { destruct us as [|u us]; [done|].
    destruct (Hu u) as (item & t1 & t2 & Hitem & Hr & _); [left|].
    rewrite (Hterm item Hitem) in Hr. done. }
  subst us.
  apply updateIntelligences_nothing_fetched.
  intros i Hin Hg Hmay. rewrite Hact in Hin.
  apply list_elem_of_filter in Hin as [Hkeep Hin].
  apply list_elem_of_fmap in Hin as (r & -> & Hr).
  unfold updated in *; simpl in *.
  assert (Hitem : r ∈ getIntelligencesDB (Report.globalId <$> content) sk db)
    by (by apply getIntelligencesDB_elem).
  specialize (Hi r Hitem). rewrite (Hterm r Hitem) in Hi.
  destruct Hi as (t1 & t2 & h & Ht & Hhin).
  apply Hkeep. split; [|done].
  apply list_elem_of_fmap. exists h. split; [|done].
  by apply terminalRecord_Return in Ht as (-> & _).
Qed.

Lemma updateIntelligences_redelivery_changes_nothing_witness :
  updateIntelligences 2 Scenario.clock
    [Scenario.report1 "FINISHED" None] None
    (updateIntelligences 2 Scenario.clock [Scenario.report1 "FINISHED" None] None
       (mkDB [Scenario.created] [])).2
  = (Return (),
     (updateIntelligences 2 Scenario.clock [Scenario.report1 "FINISHED" None] None
        (mkDB [Scenario.created] [])).2).
Proof.
  apply (updateIntelligences_redelivery_changes_nothing 2 Scenario.clock
           Scenario.clock [Scenario.report1 "FINISHED" None] None
           (mkDB [Scenario.created] [])).
  - by vm_compute.
  - intros item Hitem. vm_compute in Hitem.
    apply list_elem_of_singleton in Hitem as ->. by vm_compute.
Defined.

Lemma foldl_insert_keeps (l : list Report.t) (m : gmap string Report.t) r :
  (∀ r', r' ∈ l → Report.globalId r' ≠ Report.globalId r) →
  m !! Report.globalId r = Some r →
  foldl (λ m item, <[Report.globalId item := item]> m) m l
    !! Report.globalId r = Some r.
Proof.
  revert m. induction l as [|x l IH]; intros m Hl Hm; [done|]. simpl.
  apply IH; [intros r' Hr'; apply Hl; by right|].
  rewrite lookup_insert_ne; [done|]. apply Hl. left.
Qed.

(** X15.  When a batch carries several reports for one intelligence, the
    last of them is the one that counts. *)
Theorem mkContentMap_last_report_wins content r later :
  (∀ r', r' ∈ later → Report.globalId r' ≠ Report.globalId r) →
  mkContentMap (content ++ r :: later) !! Report.globalId r = Some r.
Proof.
  intros Hlater. unfold mkContentMap. rewrite foldl_app. simpl.
  apply foldl_insert_keeps; [done|]. apply lookup_insert_eq.
Qed.

Lemma mkContentMap_last_report_wins_witness :
  mkContentMap ([Scenario.report1 "FAILED" (Some "timeout")]
                ++ Scenario.report1 "FINISHED" None :: [])
    !! Report.globalId (Scenario.report1 "FINISHED" None)
  = Some (Scenario.report1 "FINISHED" None).
Proof.
  apply (mkContentMap_last_report_wins
           [Scenario.report1 "FAILED" (Some "timeout")]
           (Scenario.report1 "FINISHED" None) []).
  intros r' Hr'. by apply elem_of_nil in Hr'.
Defined.

(** X16.  A report without state that ends an intelligence (its retries are
    used up) is counted as a failure and yet archived as FINISHED: the
    archived record has state FINISHED, the raised [failuresNumber] and an
    empty [failuresReason]. *)
Theorem report_without_state_is_archived_finished t1 t2 item intelligence h :
  get_state intelligence = None →
  terminalRecord t1 t2 item intelligence = Return h →
  Intelligence.state (Intelligence.system (clearReason h))
  = Some INTELLIGENCE_STATE.finished
  ∧ Intelligence.failuresNumber (Intelligence.system (clearReason h))
    = plus_one (Intelligence.failuresNumber (Intelligence.system item))
  ∧ truthy (Intelligence.failuresReason (Intelligence.system (clearReason h)))
    = false.
Proof.
  intros Hstate Ht.
  apply terminalRecord_Return in Ht as (_ & _ & Hn & Hs & _).
  rewrite Hstate in Hn, Hs. simpl in Hs.
  rewrite bool_decide_eq_true_2 in Hn by done.
  destruct (clearReason_fields h) as (_ & -> & -> & Hclear & _).
  auto.
Qed.

Lemma report_without_state_is_archived_finished_witness :
  Intelligence.state
    (Intelligence.system
       (clearReason
          (Intelligence.mk None None "intel-1"
             (Intelligence.mkSystem (Some "FINISHED") (Some (Num 3))
                (Some "timeout") (Some 1) (Some 2) (Some Scenario.attempt1) None)
             [("url", "https://example.com")])))
  = Some "FINISHED".
Proof.
  apply (report_without_state_is_archived_finished 1 2 Scenario.exhausted
           (Some (Report.mk "intel-1"
                    (Some (Report.mkSystem None (Some "timeout")
                             (Some Scenario.attempt1)))))).
  - reflexivity.
  - reflexivity.
Defined.
End ReportingInvariants.

Section ConsecutiveFailures.
Import IntelligenceAndHistoryCtrl RetryEngine.

Lemma mkContentMap_singleton report :
  mkContentMap [report] !! Report.globalId report = Some report.
Proof. unfold mkContentMap; simpl. apply lookup_insert_eq. Qed.

Lemma getIntelligencesDB_single report sk r hist :
  Intelligence.globalId r = Report.globalId report → may_act sk r →
  getIntelligencesDB (Report.globalId <$> [report]) sk (mkDB [r] hist) = [r].
Proof.
  intros Hg Hm. unfold getIntelligencesDB; simpl.
  rewrite filter_cons, decide_True; [done|].
  split; [|done]. rewrite Hg. left.
Qed.

(** One report about the only active record, on the retry branch. *)
Lemma updateIntelligences_single_retry MAX clock report sk r hist :
  Intelligence.globalId r = Report.globalId report → may_act sk r →
  retries MAX r (Some report) = true →
  updateIntelligences MAX clock [report] sk (mkDB [r] hist)
  = (Return (),
     mkDB [applyUpdate (retryUpdate (clock 0%nat) (clock 1%nat) r (Some report)) r]
          hist).
Proof.
  intros Hg Hm Hr. unfold updateIntelligences.
  rewrite (getIntelligencesDB_single report sk r hist Hg Hm).
  simpl. rewrite Hg, mkContentMap_singleton, <- Hg, Hr. simpl.
  unfold deleteIntelligencesDB, addIntelligenceHistoryDB, updateEachIntelligencesDB.
  simpl. rewrite app_nil_r.
  rewrite filter_all; [done|].
  intros x _ [Hin _]. by apply elem_of_nil in Hin.
Qed.

(** One report about the only active record, on the terminal branch. *)
Lemma updateIntelligences_single_terminal MAX clock report sk r hist h :
  Intelligence.globalId r = Report.globalId report → may_act sk r →
  retries MAX r (Some report) = false →
  terminalRecord (clock 0%nat) (clock 1%nat) r (Some report) = Return h →
  updateIntelligences MAX clock [report] sk (mkDB [r] hist)
  = (Return (), mkDB [] (hist ++ [clearReason h])).
Proof.
  intros Hg Hm Hr Ht. unfold updateIntelligences.
  rewrite (getIntelligencesDB_single report sk r hist Hg Hm).
  simpl. rewrite Hg, mkContentMap_singleton, <- Hg, Hr, Ht. simpl.
  unfold deleteIntelligencesDB, addIntelligenceHistoryDB. simpl.
  rewrite filter_none; [done|].
  intros x Hx Hn. apply list_elem_of_singleton in Hx as ->.
  apply Hn. split; [left|done].
Qed.

Lemma applyUpdate_retry_failuresNumber t1 t2 r intelligence :
  Intelligence.failuresNumber
    (Intelligence.system (applyUpdate (retryUpdate t1 t2 r intelligence) r))
  = Some (Num (or_zero (Intelligence.failuresNumber (Intelligence.system r)) + 1)).
Proof.
  unfold applyUpdate. rewrite decide_True by done.
  exact (retryUpdate_failuresNumber t1 t2 r intelligence).
Qed.

Lemma reportRepeatedly_below_maximum (m : nat) clock report sk r hist k :
  Intelligence.globalId r = Report.globalId report → may_act sk r →
  or_zero (Intelligence.failuresNumber (Intelligence.system r)) = 0 →
  get_state (Some report) ≠ Some INTELLIGENCE_STATE.finished →
  (k ≤ m)%nat →
  ∃ r', reportRepeatedly (Z.of_nat m) clock report sk k (mkDB [r] hist)
        = mkDB [r'] hist
        ∧ Intelligence.globalId r' = Report.globalId report
        ∧ may_act sk r'
        ∧ or_zero (Intelligence.failuresNumber (Intelligence.system r'))
          = Z.of_nat k
        ∧ ((1 ≤ k)%nat →
           Intelligence.failuresNumber (Intelligence.system r')
           = Some (Num (Z.of_nat k))).
Proof.
  intros Hg Hm Hzero Hstate. induction k as [|k IH]; intros Hk.
  - exists r. repeat split; auto. lia.
  - destruct IH as (r' & Hrun & Hg' & Hm' & Hn' & _); [lia|].
    unfold reportRepeatedly in *. simpl. rewrite Hrun.
    assert (Hr : retries (Z.of_nat m) r' (Some report) = true).
    { unfold retries. rewrite Hn'.
      rewrite bool_decide_eq_true_2 by lia. by rewrite bool_decide_eq_true_2. }
    rewrite (updateIntelligences_single_retry _ clock report sk r' hist Hg' Hm' Hr).
    simpl. eexists. split; [reflexivity|].
    rewrite applyUpdate_globalId. split; [done|].
    split; [unfold may_act in *; by rewrite applyUpdate_securityKey|].
    rewrite applyUpdate_retry_failuresNumber, Hn'. simpl.
    split; [lia|]. intros _. do 2 f_equal. lia.
Qed.

(** X17.  With a maximum of [m] failures ([m] at least 1), an intelligence
    that has not failed yet stays active through [m] consecutive reports that
    are not FINISHED, its [failuresNumber] being [k] after the [k]-th, and is
    archived by the next one, the [m+1]-th, with [failuresNumber] [m+1];
    the active collection is then empty of it. *)
Theorem archived_by_the_failure_after_the_maximum
    (m : nat) clock report sk r hist :
  (1 ≤ m)%nat →
  Intelligence.globalId r = Report.globalId report → may_act sk r →
  or_zero (Intelligence.failuresNumber (Intelligence.system r)) = 0 →
  get_state (Some report) ≠ Some INTELLIGENCE_STATE.finished →
  carries_producer (Some report) = true →
  (∀ k, (1 ≤ k ≤ m)%nat →
     ∃ r', reportRepeatedly (Z.of_nat m) clock report sk k (mkDB [r] hist)
           = mkDB [r'] hist
           ∧ Intelligence.globalId r' = Intelligence.globalId r
           ∧ Intelligence.failuresNumber (Intelligence.system r')
             = Some (Num (Z.of_nat k)))
  ∧ ∃ h, reportRepeatedly (Z.of_nat m) clock report sk (S m) (mkDB [r] hist)
         = mkDB [] (hist ++ [h])
         ∧ Intelligence.globalId h = Intelligence.globalId r
         ∧ Intelligence.failuresNumber (Intelligence.system h)
           = Some (Num (Z.of_nat m + 1)).
Proof.
  intros Hm1 Hg Hm Hzero Hstate Hcarries. split.
  - intros k Hk.
    destruct (reportRepeatedly_below_maximum m clock report sk r hist k)
      as (r' & Hrun & Hg' & _ & _ & Hn); auto; [lia|].
    exists r'. split; [done|]. split; [congruence|]. apply Hn. lia.
  - destruct (reportRepeatedly_below_maximum m clock report sk r hist m)
      as (r' & Hrun & Hg' & Hm' & Hn' & Hn); auto.
    unfold reportRepeatedly in *. simpl. rewrite Hrun.
    assert (Hr : retries (Z.of_nat m) r' (Some report) = false).
    { unfold retries. rewrite Hn'. by rewrite bool_decide_eq_false_2 by lia. }
    destruct (terminalRecord_carries (clock 0%nat) (clock 1%nat) r' (Some report)
                Hcarries) as [h Ht].
    rewrite (updateIntelligences_single_terminal _ clock report sk r' hist h
               Hg' Hm' Hr Ht).
    simpl. exists (clearReason h). split; [done|].
    destruct (clearReason_fields h) as (-> & _ & -> & _).
    apply terminalRecord_Return in Ht as (-> & _ & -> & _).
    split; [congruence|].
    rewrite bool_decide_eq_true_2 by done.
    rewrite (Hn Hm1). simpl. done.
Qed.

Lemma archived_by_the_failure_after_the_maximum_witness :
  ∃ h, reportRepeatedly (Z.of_nat 3) Scenario.clock
         (Scenario.report1 "FAILED" (Some "timeout")) None 4
         (mkDB [Scenario.created] [])
       = mkDB [] ([] ++ [h])
       ∧ Intelligence.globalId h = Intelligence.globalId Scenario.created
       ∧ Intelligence.failuresNumber (Intelligence.system h)
         = Some (Num (Z.of_nat 3 + 1)).
Proof.
  apply (archived_by_the_failure_after_the_maximum 3 Scenario.clock
           (Scenario.report1 "FAILED" (Some "timeout")) None
           Scenario.created []); try done. lia.
Defined.
End ConsecutiveFailures.

(** ** Creating intelligences *)

Section CreatingIntelligences.
Import Registration.
Context {Store Result : Type}.
Variable merge : Draft.t → Draft.t → Draft.t.
Variable toUpper : string → string.
Variable generateGlobalId : nat → string → string.
Variable validateIntelligence : Draft.t → bool.
Variable ownKeys : list string → list string.
Variable getRetailer : string → Store → outcome unit * Store.
Variable addIntelligencesDB : list Draft.t → Store → outcome Result * Store.
Variable DEFAULT_INTELLIGENCE : Draft.t.
Variable PRODUCER_STATE_configured RETAILER_STATE_active : string.

Let prepare' :=
  prepare merge toUpper generateGlobalId validateIntelligence
    DEFAULT_INTELLIGENCE PRODUCER_STATE_configured RETAILER_STATE_active.
Let prepareAll' :=
  prepareAll merge toUpper generateGlobalId validateIntelligence
    DEFAULT_INTELLIGENCE PRODUCER_STATE_configured RETAILER_STATE_active.
Let checkRetailers' := checkRetailers getRetailer.
Let addIntelligences' :=
  addIntelligences merge toUpper generateGlobalId validateIntelligence ownKeys
    getRetailer addIntelligencesDB DEFAULT_INTELLIGENCE
    PRODUCER_STATE_configured RETAILER_STATE_active.

(** X18.  One invalid intelligence rejects the whole batch: the call throws
    the error 400 "00064000001" and leaves the store as it was; no retailer
    is looked up and nothing is inserted, whatever the other intelligences
    of the batch are. *)
Theorem addIntelligences_one_invalid_rejects_all clock items sk st rows row :
  prepareAll' clock sk 0%nat items = Return rows →
  row ∈ rows → valid row = false →
  addIntelligences' clock items sk st
  = (Throw (HTTPError 400 "00064000001" []), st).
Proof.
  intros Hrows Hin Hinvalid.
  unfold addIntelligences', addIntelligences. fold prepareAll'. rewrite Hrows.
  rewrite bool_decide_eq_true_2; [done|].
  apply Exists_exists. eauto.
Qed.

(** The fields [prepare] does not read. *)
Lemma prepare_ignores k t1 t2 sk d d' :
  Draft.suitableProducers d = Draft.suitableProducers d' →
  Draft.retailer d = Draft.retailer d' →
  Draft.payload d = Draft.payload d' →
  prepare' k t1 t2 sk d = prepare' k t1 t2 sk d'.
Proof. intros Hs Hr Hp. unfold prepare', prepare. by rewrite Hs, Hr, Hp. Qed.

Lemma prepareAll_ignores clock sk k items items' :
  Forall2 (λ d d', Draft.suitableProducers d = Draft.suitableProducers d'
                   ∧ Draft.retailer d = Draft.retailer d'
                   ∧ Draft.payload d = Draft.payload d') items items' →
  prepareAll' clock sk k items = prepareAll' clock sk k items'.
Proof.
  intros H. revert k. induction H as [|d d' l l' (Hs & Hr & Hp) _ IH]; intros k.
  - done.
  - simpl. fold prepare'. rewrite (prepare_ignores _ _ _ _ d d' Hs Hr Hp).
    destruct (prepare' k _ _ sk d'); [|done]. fold prepareAll'. by rewrite IH.
Qed.

(** X19.  What a caller puts in [dataset], [system] and [globalId] of the
    intelligences it submits has no effect at all: two batches that agree on
    the other fields give the same outcome and the same store. *)
Theorem addIntelligences_ignores_submitted_system clock items items' sk st :
  Forall2 (λ d d', Draft.suitableProducers d = Draft.suitableProducers d'
                   ∧ Draft.retailer d = Draft.retailer d'
                   ∧ Draft.payload d = Draft.payload d') items items' →
  addIntelligences' clock items sk st = addIntelligences' clock items' sk st.
Proof.
  intros H. unfold addIntelligences', addIntelligences. fold prepareAll'.
  by rewrite (prepareAll_ignores clock sk 0 items items' H).
Qed.

Lemma prepare_Return k t1 t2 sk d row :
  prepare' k t1 t2 sk d = Return row →
  Draft.system (doc row)
  = Some (Draft.mkSystem (Some t1) (Some t2) sk (Some PRODUCER_STATE_configured)
            None None None None)
  ∧ (∃ types, Draft.suitableProducers (doc row) = Some (toUpper <$> types))
  ∧ (∃ r, Draft.retailer (doc row) = Some r
          ∧ retailerKey row = propertyKey (Draft.retailerGlobalId r)
          ∧ (RETAILER_STATE_active ≠ "" →
             ∃ v, Draft.retailerState r = Some v ∧ v ≠ "")).
Proof.
  unfold prepare', prepare. intros H.
  destruct (Draft.system _) as [s|]; [|done].
  destruct (Draft.suitableProducers _) as [types|]; [|done].
  destruct (Draft.retailer _) as [r|]; [|done].
  injection H as <-. simpl.
  split; [done|]. split; [eauto|].
  eexists. split; [reflexivity|]. split; [reflexivity|].
  intros Hact.
  destruct (Draft.retailerState r) as [v|] eqn:Hv; [case_bool_decide|];
    simpl; eauto.
Qed.

(** X20.  Every document [addIntelligences] prepares for the collection, one
    per submitted intelligence and in the same order, has a [system] made
    of: the two clock readings as [created] and [modified], the security key
    of the call, the state CONFIGURED, and no [producer], [startedAt],
    [endedAt] or [failuresNumber]; its producer types went through
    [_.toUpper] and its retailer has a state. *)
Theorem addIntelligences_prepared_documents clock sk k0 items rows :
  prepareAll' clock sk k0 items = Return rows →
  length rows = length items
  ∧ ∀ i row, rows !! i = Some row →
      Draft.system (doc row)
      = Some (Draft.mkSystem (Some (clock (2 * (k0 + i))%nat))
                (Some (clock (2 * (k0 + i) + 1)%nat)) sk
                (Some PRODUCER_STATE_configured) None None None None)
      ∧ (∃ types, Draft.suitableProducers (doc row) = Some (toUpper <$> types))
      ∧ (RETAILER_STATE_active ≠ "" →
         ∃ r v, Draft.retailer (doc row) = Some r
                ∧ Draft.retailerState r = Some v ∧ v ≠ "").
Proof.
  revert k0 rows. induction items as [|d items IH]; intros k0 rows H; simpl in H.
  - simplify_eq. split; [done|]. intros i row Hi. by rewrite lookup_nil in Hi.
  - fold prepare' in H.
    destruct (prepare' k0 _ _ sk d) as [row0|] eqn:Hp; [|done].
    fold prepareAll' in H.
    destruct (prepareAll' clock sk (S k0) items) as [rows0|] eqn:Hrest; [|done].
    simplify_eq. destruct (IH _ _ Hrest) as [Hlen Hall].
    split; [simpl; by rewrite Hlen|].
    intros [|i] row Hi; simpl in Hi.
    + simplify_eq. rewrite Nat.add_0_r.
      apply prepare_Return in Hp as (Hs & Ht & r & Hr & _ & Hst).
      split; [done|]. split; [done|]. intros Hact.
      destruct (Hst Hact) as (v & ? & ?). eauto.
    + replace (k0 + S i)%nat with (S k0 + i)%nat by lia. by apply Hall.
Qed.

Lemma checkRetailers_throws key keys :
  key ∈ keys →
  (∀ st0, ∃ e st1, getRetailer key st0 = (Throw e, st1)) →
  ∀ st, ∃ e st', checkRetailers' keys st = (Throw e, st').
Proof.
  intros Hin Hunknown. induction keys as [|k keys IH]; intros st.
  - by apply elem_of_nil in Hin.
  - simpl. destruct (getRetailer k st) as [[[]|e] st1] eqn:Hk.
    + apply elem_of_cons in Hin as [->|Hin].
      * destruct (Hunknown st) as (e & st' & He). congruence.
      * by apply IH.
    + eauto.
Qed.

(** X21.  A retailer that cannot be found keeps the whole batch out of the
    collection: when the lookup of one of the retailers named in a valid
    batch throws, [addIntelligences] ends with the exception of the retailer
    check, and with the store that check left; the insertion is not
    reached. *)
Theorem addIntelligences_unknown_retailer_inserts_nothing
    clock items sk st rows key :
  prepareAll' clock sk 0%nat items = Return rows →
  (∀ row, row ∈ rows → valid row = true) →
  key ∈ (retailerKey <$> rows) →
  (∀ keys k, k ∈ keys → k ∈ ownKeys keys) →
  (∀ st0, ∃ e st1, getRetailer key st0 = (Throw e, st1)) →
  ∃ e st',
    checkRetailers' (ownKeys (retailerKey <$> rows)) st = (Throw e, st')
    ∧ addIntelligences' clock items sk st = (Throw e, st').
Proof.
  intros Hrows Hvalid Hkey Hown Hunknown.
  destruct (checkRetailers_throws key (ownKeys (retailerKey <$> rows))
              (Hown _ _ Hkey) Hunknown st) as (e & st' & Hcheck).
  exists e, st'. split; [done|].
  unfold addIntelligences', addIntelligences. fold prepareAll'. rewrite Hrows.
  rewrite bool_decide_eq_false_2.
  - fold checkRetailers'. by rewrite Hcheck.
  - intros Hex. apply Exists_exists in Hex as (row & Hin & Hbad).
    rewrite (Hvalid row Hin) in Hbad. done.
Qed.
End CreatingIntelligences.

Section CreatingIntelligencesExamples.
Import Registration.

Lemma addIntelligences_one_invalid_rejects_all_witness :
  Scenario.register
    [Scenario.submitted (Some "retailer-1"); Scenario.submitted None] []
  = (Throw (HTTPError 400 "00064000001" []), []).
Proof.
  unfold Scenario.register.
  eapply (addIntelligences_one_invalid_rejects_all Scenario.mergeDraft
            Scenario.same Scenario.counted Scenario.wantsRetailer (λ keys, keys)
            Scenario.knownRetailer Scenario.insertAll Scenario.defaults
            "CONFIGURED" "ACTIVE" Scenario.clock0 _ (Some "key-1") []).
  - by vm_compute.
  - right. left.
  - reflexivity.
Defined.

Lemma addIntelligences_ignores_submitted_system_witness :
  Scenario.register [Scenario.submitted (Some "retailer-1")] []
  = Scenario.register
      [Draft.mk None None None (Some ["headlessbrowser"])
         (Some (Draft.mkRetailer (Some "retailer-1") None))
         [("url", "https://example.com")]] [].
Proof.
  unfold Scenario.register.
  apply addIntelligences_ignores_submitted_system.
  by repeat constructor.
Defined.

Lemma addIntelligences_prepared_documents_witness :
  ∃ rows,
    prepareAll Scenario.mergeDraft Scenario.same Scenario.counted
      Scenario.wantsRetailer Scenario.defaults "CONFIGURED" "ACTIVE"
      Scenario.clock0 (Some "key-1") 0 [Scenario.submitted (Some "retailer-1")]
    = Return rows
    ∧ length rows = length [Scenario.submitted (Some "retailer-1")].
Proof.
  eexists. split; [by vm_compute|].
  eapply (addIntelligences_prepared_documents Scenario.mergeDraft Scenario.same
            Scenario.counted Scenario.wantsRetailer Scenario.defaults
            "CONFIGURED" "ACTIVE" Scenario.clock0 (Some "key-1") 0).
  by vm_compute.
Defined.

Lemma addIntelligences_unknown_retailer_inserts_nothing_witness :
  ∃ e st',
    Scenario.register
      [Scenario.submitted (Some "retailer-1"); Scenario.submitted (Some "retailer-2")]
      []
    = (Throw e, st').
Proof.
  unfold Scenario.register.
  destruct (addIntelligences_unknown_retailer_inserts_nothing
              Scenario.mergeDraft Scenario.same Scenario.counted
              Scenario.wantsRetailer (λ keys, keys) Scenario.knownRetailer
              Scenario.insertAll Scenario.defaults "CONFIGURED" "ACTIVE"
              Scenario.clock0
              [Scenario.submitted (Some "retailer-1");
               Scenario.submitted (Some "retailer-2")]
              (Some "key-1") []
              (match prepareAll Scenario.mergeDraft Scenario.same Scenario.counted
                       Scenario.wantsRetailer Scenario.defaults "CONFIGURED"
                       "ACTIVE" Scenario.clock0 (Some "key-1") 0
                       [Scenario.submitted (Some "retailer-1");
                        Scenario.submitted (Some "retailer-2")] with
               | Return rows => rows
               | Throw _ => []
               end)
              "retailer-2")
    as (e & st' & _ & Hrun).
  - by vm_compute.
  - intros row Hrow. vm_compute in Hrow.
    repeat (apply elem_of_cons in Hrow as [->|Hrow]; [reflexivity|]).
    by apply elem_of_nil in Hrow.
  - vm_compute. right. left.
  - done.
  - intros st0. by eexists _, st0.
  - by exists e, st'.
Defined.
End CreatingIntelligencesExamples.

(** ** The housekeeping job *)

Section HousekeepingJob.
Import CheckSOIStatus.
Context {Store : Type}.
Variable find : Z → Store → outcome (list SOI).
Variable updateSOIStatus : string → SOI → Store → outcome unit * Store.
Variable SOI_STATUS_CHECK_TIME : Z.

Let updateEach' := updateEach updateSOIStatus.
Let checkSOIStatus' := checkSOIStatus find updateSOIStatus SOI_STATUS_CHECK_TIME.

Lemma updateEach_app l1 l2 st :
  updateEach' (l1 ++ l2) st
  = match updateEach' l1 st with
    | (Throw e, st') => (Throw e, st')
    | (Return _, st') => updateEach' l2 st'
    end.
Proof.
  revert st. induction l1 as [|soi l1 IH]; intros st; simpl.
  - by destruct (updateEach' l2 st) as [[[]|e] st'].
  - destruct (updateSOIStatus (global_id soi) soi st) as [[[]|e] st']; [|done].
    apply IH.
Qed.

(** X22.  The job stops at the first update that throws: the SOIs before it
    have been updated, those after it are not visited, the exception is
    logged and swallowed, and [done()] is not called; [done()] is called
    exactly when the query and every update succeeded. *)
Theorem checkSOIStatus_stops_at_first_failure now st :
  (∀ before soi after st1 e st2,
     find (now - SOI_STATUS_CHECK_TIME) st = Return (before ++ soi :: after) →
     updateEach' before st = (Return (), st1) →
     updateSOIStatus (global_id soi) soi st1 = (Throw e, st2) →
     checkSOIStatus' now st = (mkRun false (Some e), st2))
  ∧ (done_called (checkSOIStatus' now st).1 = true ↔
     ∃ sois st', find (now - SOI_STATUS_CHECK_TIME) st = Return sois
                 ∧ updateEach' sois st = (Return (), st')
                 ∧ checkSOIStatus' now st = (mkRun true None, st')).
Proof.
  split.
  - intros before soi after st1 e st2 Hfind Hbefore Hfail.
    unfold checkSOIStatus', checkSOIStatus. rewrite Hfind.
    fold updateEach'. rewrite updateEach_app, Hbefore. simpl. by rewrite Hfail.
  - unfold checkSOIStatus', checkSOIStatus. fold updateEach'. split.
    + destruct (find _ st) as [sois|e]; [|done].
      destruct (updateEach' sois st) as [[[]|e] st'] eqn:Hu; [|done].
      intros _. by exists sois, st'.
    + intros (sois & st' & -> & -> & _). done.
Qed.
End HousekeepingJob.

Section HousekeepingJobExamples.
Import CheckSOIStatus.

Lemma checkSOIStatus_stops_at_first_failure_witness :
  checkSOIStatus Scenario.due Scenario.visit 600000 1000000 []
  = (mkRun false (Some (HTTPError 500 "00000000000" [Some "soi-2"])), ["soi-1"]).
Proof.
  apply (proj1 (checkSOIStatus_stops_at_first_failure Scenario.due Scenario.visit
                  600000 1000000 [])
           [Scenario.soi "soi-1"] (Scenario.soi "soi-2") [Scenario.soi "soi-3"]
           ["soi-1"]);
    reflexivity.
Defined.
End HousekeepingJobExamples.
